(** * data-forge-ts: the DataFrame operator algebra of [src/lib/dataframe.ts]

    A shallow embedding of the [DataFrame] and [OrderedDataFrame] classes.
    Lazily evaluated sequences are modelled by the finite lists their
    traversal yields (every iterable of the library re-runs a pure
    transformation on each traversal), a lazily initialised dataframe by
    the content record its configuration function produces, and a thrown
    [Error] by the [Throw] constructor of [result]. *)

From Stdlib Require Import Ascii.
From stdpp Require Import gmap strings list fin_maps pretty.

(** ** Exceptions *)

Inductive result (A : Type) : Type :=
| Ok (a : A)
| Throw (msg : string).
Arguments Ok {A} a.
Arguments Throw {A} msg.

#[global] Instance result_bind : MBind result :=
  λ A B (k : A → result B) (r : result A),
    match r with
    | Ok a => k a
    | Throw m => Throw m
    end.

Fixpoint mapM_result {A B} (f : A → result B) (l : list A) : result (list B) :=
  match l with
  | [] => Ok []
  | x :: l' => y ← f x; ys ← mapM_result f l'; Ok (y :: ys)
  end.

(** ** JavaScript values

    Numbers are the integer-valued ones (no NaN, no fractions).  An object
    carries the identity of its reference, which is what [===] compares,
    and its own enumerable properties in property order. *)

#[warnings="-register-all"] Inductive value : Type :=
| VUndefined
| VNull
| VBool (b : bool)
| VNum (n : Z)
| VStr (s : string)
| VObj (ref : nat) (props : list (string * value)).

(** [a === b] *)
Definition strict_eq (a b : value) : bool :=
  match a, b with
  | VUndefined, VUndefined => true
  | VNull, VNull => true
  | VBool x, VBool y => bool_decide (x = y)
  | VNum x, VNum y => bool_decide (x = y)
  | VStr x, VStr y => bool_decide (x = y)
  | VObj r _, VObj r' _ => bool_decide (r = r')
  | _, _ => false
  end.

(** [v !== undefined] *)
Definition strict_ne_undefined (v : value) : bool :=
  match v with
  | VUndefined => false
  | _ => true
  end.

(** [v != undefined]: the loose comparison also equates [null]. *)
Definition loose_ne_undefined (v : value) : bool :=
  match v with
  | VUndefined | VNull => false
  | _ => true
  end.

(** [v === null] *)
Definition is_null (v : value) : bool :=
  match v with
  | VNull => true
  | _ => false
  end.

(** The string a value is coerced to when it is used as a property key
    ([map[v]]). *)
Definition toKey (v : value) : string :=
  match v with
  | VUndefined => "undefined"
  | VNull => "null"
  | VBool true => "true"
  | VBool false => "false"
  | VNum n => pretty n
  | VStr s => s
  | VObj _ _ => "[object Object]"
  end.

(** Lookup in an association list of properties: first binding of the
    name. *)
Fixpoint assoc (name : string) (props : list (string * value)) : option value :=
  match props with
  | [] => None
  | (k, v) :: rest => if bool_decide (k = name) then Some v else assoc name rest
  end.

(** The own enumerable properties copied by [Object.assign({}, v)]:
    none for [null], [undefined], numbers and booleans; the indexed
    characters for a string. *)
Definition string_chars (s : string) : list (string * value) :=
  imap (λ i c, (pretty (Z.of_nat i), VStr (String c EmptyString)))
       (String.list_ascii_of_string s).

Definition own_props (v : value) : list (string * value) :=
  match v with
  | VObj _ props => props
  | VStr s => string_chars s
  | _ => []
  end.

(** [row[name]]: an own property of an object, a character or the length
    of a string; a missing property reads as [undefined], and reading a
    property of [null] or [undefined] throws.  Members inherited from the
    prototypes ([toString], [constructor], ...) are not modelled here nor in
    the plain objects that the library uses as maps. *)
Definition get_prop (row : value) (name : string) : result value :=
  match row with
  | VObj _ props => Ok (default VUndefined (assoc name props))
  | VStr s =>
      if bool_decide (name = "length") then Ok (VNum (Z.of_nat (String.length s)))
      else Ok (default VUndefined (assoc name (string_chars s)))
  | VUndefined | VNull =>
      Throw "TypeError: Cannot read property of null or undefined"
  | _ => Ok VUndefined
  end.

(** [obj[name] = v] on the property list: an existing property keeps its
    place, a new one is added at the end. *)
Fixpoint set_prop (props : list (string * value)) (name : string) (v : value)
  : list (string * value) :=
  match props with
  | [] => [(name, v)]
  | (k, w) :: rest =>
      if bool_decide (k = name) then (k, v) :: rest
      else (k, w) :: set_prop rest name v
  end.

(** [Object.keys(v)] *)
Definition object_keys (v : value) : result (list string) :=
  match v with
  | VUndefined | VNull => Throw "TypeError: Cannot convert undefined or null to object"
  | _ => Ok (own_props v).*1
  end.

(** ** Iterables

    The iterables live in other files of the library; each is modelled by
    the list it yields. *)

(** Modelled from the spec: the index of a dataframe built without one is
    "a fresh 0-based sequence" (section 4.3), the [CountIterable] 0, 1, 2,
    ... without end; otherwise it is a finite sequence of keys. *)
Inductive index_seq : Type :=
| CountIterable
| IndexValues (l : list value).

Definition count_from (start : nat) (n : nat) : list value :=
  (λ i, VNum (Z.of_nat i)) <$> seq start n.

Definition index_take (ix : index_seq) (n : nat) : list value :=
  match ix with
  | CountIterable => count_from 0 n
  | IndexValues l => take n l
  end.

(** Modelled from the spec: [MultiIterable([index, values])] zips its
    inputs and stops at the shortest (section 4.1, zip). *)
Definition MultiIterable {V} (ix : index_seq) (vals : list V) : list (value * V) :=
  zip (index_take ix (length vals)) vals.

(** Modelled from the spec: [SelectIterable] maps, passing the position in
    the sequence to the selector (section 4.1, map). *)
Definition SelectIterable {A B} (l : list A) (f : A → nat → B) : list B :=
  imap (λ i x, f x i) l.

(** Modelled from the spec: [WhereIterable] keeps the elements that satisfy
    the predicate (section 4.1, filter). *)
Definition WhereIterable {A} (l : list A) (p : A → bool) : list A :=
  List.filter p l.

(** Modelled from the spec: [ConcatIterable] preserves the order of its
    inputs and removes nothing (section 4.1, concat). *)
Definition ConcatIterable {A} (ls : list (list A)) : list A := concat ls.

(** Modelled from the spec: [ExtractElementIterable(pairs, 0)] and
    [ExtractElementIterable(pairs, 1)] yield the index and the values that
    [pairs] is the zip of (section 3). *)
Definition ExtractIndex {V} (pairs : list (value * V)) : list value := pairs.*1.
Definition ExtractValue {V} (pairs : list (value * V)) : list V := pairs.*2.

(** Modelled from the spec: [makeDistinct] keeps the first occurrence of
    each item, in first-seen order (section 4.1, distinct; section 4.3,
    "distinct concatenation"). *)
Fixpoint first_seen (seen : gset string) (names : list string) : list string :=
  match names with
  | [] => []
  | n :: rest =>
      if bool_decide (n ∈ seen) then first_seen seen rest
      else n :: first_seen ({[n]} ∪ seen) rest
  end.

Definition makeDistinct (items : list string) : list string := first_seen ∅ items.

(** Modelled from the spec: [ColumnNamesIterable(values, considerAllRows)]
    infers the column names from the keys of the first row, or of all the
    rows in first-seen order when [considerAllRows] is set (section 6).  A
    row that is not an object contributes the keys [Object.assign] would
    copy from it. *)
Definition ColumnNamesIterable (vals : list value) (considerAllRows : bool)
  : list string :=
  if considerAllRows then
    makeDistinct (concat ((λ row, (own_props row).*1) <$> vals))
  else
    match vals with
    | [] => []
    | row :: _ => (own_props row).*1
    end.

(** ** Content of a dataframe *)

Record IDataFrameContent : Type := {
  index : index_seq;
  values : list value;
  pairs : list (value * value);
  isBaked : bool;
  columnNames : list string;
}.

(** A [DataFrame] object holds its content or the function that produces
    it on first use; either way it is observed through [getContent]. *)
Abbreviation DataFrame := IDataFrameContent.

Module Config.
(** The fields of [IDataFrameConfig] read by [initFromConfig], apart from
    [rows] and [columns]. *)
Record t : Type := {
  values : option (list value);
  index : option index_seq;
  pairs : option (list (value * value));
  columnNames : option (list string);
  baked : option bool;
  considerAllRows : option bool;
}.

End Config.

(** *** Column names *)

Definition lower_ascii (c : Ascii.ascii) : Ascii.ascii :=
  let n := Ascii.nat_of_ascii c in
  if bool_decide (65 ≤ n ≤ 90)%nat then Ascii.ascii_of_nat (n + 32) else c.

(** [s.toLowerCase()], on ASCII letters. *)
Fixpoint toLowerCase (s : string) : string :=
  match s with
  | EmptyString => EmptyString
  | String c rest => String (lower_ascii c) (toLowerCase rest)
  end.

(** First loop of [initColumnNames]: how often each lower-cased name
    occurs.  The plain objects used as maps are finite maps on strings. *)
Definition countColumnNames (inputColumnNames : list string) : gmap string nat :=
  foldl (λ (columnNamesMap : gmap string nat) columnName,
           let columnNameLwr := toLowerCase columnName in
           match columnNamesMap !! columnNameLwr with
           | None => <[columnNameLwr := 1%nat]> columnNamesMap
           | Some n => <[columnNameLwr := (n + 1)%nat]> columnNamesMap
           end)
        ∅ inputColumnNames.

(** Body of the second loop: one step on (outputColumnNames, columnNoMap). *)
Definition numberColumnName (columnNamesMap : gmap string nat)
    (st : list string * gmap string nat) (columnName : string)
  : list string * gmap string nat :=
  let '(outputColumnNames, columnNoMap) := st in
  let columnNameLwr := toLowerCase columnName in
  if bool_decide (1 < default 0 (columnNamesMap !! columnNameLwr))%nat then
    let curColumnNo := default 1%nat (columnNoMap !! columnNameLwr) in
    (outputColumnNames ++ [columnName +:+ "." +:+ pretty curColumnNo],
     <[columnNameLwr := (curColumnNo + 1)%nat]> columnNoMap)
  else
    (outputColumnNames ++ [columnName], columnNoMap).

Definition initColumnNames (inputColumnNames : list string) : list string :=
  let columnNamesMap := countColumnNames inputColumnNames in
  (foldl (numberColumnName columnNamesMap) ([], ∅) inputColumnNames).1.

(** *** Construction *)

(** The argument of [new DataFrame(config)]: nothing, an array of rows, a
    configuration object or a function that produces one. *)
Inductive DataFrameArg : Type :=
| NoArg
| ArrayArg (arr : list value)
| ConfigArg (config : Config.t)
| ConfigFnArg (configFn : unit → Config.t).

Definition initFromArray (arr : list value) : result IDataFrameContent :=
  names ← match arr with
          | [] => Ok []
          | first :: _ => object_keys first
          end;
  Ok {| index := CountIterable;
        values := arr;
        pairs := MultiIterable CountIterable arr;
        isBaked := true;
        columnNames := names |}.

Definition initEmpty : IDataFrameContent :=
  {| index := IndexValues [];
     values := [];
     pairs := [];
     isBaked := true;
     columnNames := [] |}.

Definition initFromConfig (config : Config.t) : IDataFrameContent :=
  let given := initColumnNames <$> Config.columnNames config in
  let infer (vals : list value) :=
    match given with
    | Some names => names
    | None => ColumnNamesIterable vals (default false (Config.considerAllRows config))
    end in
  let '(vals, names) :=
    match Config.values config, Config.pairs config with
    | Some vals, _ => (vals, infer vals)
    | None, Some prs => (ExtractValue prs, infer (ExtractValue prs))
    | None, None => ([], default [] given)
    end in
  let ix :=
    match Config.index config, Config.pairs config with
    | Some ix, _ => ix
    | None, Some prs => IndexValues (ExtractIndex prs)
    | None, None => CountIterable
    end in
  let prs :=
    match Config.pairs config with
    | Some prs => prs
    | None => MultiIterable ix vals
    end in
  {| index := ix;
     values := vals;
     pairs := prs;
     isBaked := default false (Config.baked config);
     columnNames := names |}.

(** The content of [new DataFrame(config)] as [getContent] returns it; a
    configuration function is run on first use. *)
Definition DataFrame_new (arg : DataFrameArg) : result DataFrame :=
  match arg with
  | NoArg => Ok initEmpty
  | ArrayArg arr => initFromArray arr
  | ConfigArg config => Ok (initFromConfig config)
  | ConfigFnArg configFn => Ok (initFromConfig (configFn tt))
  end.

(** [getColumnNames] copies the column names into an array. *)
Definition getColumnNames (df : DataFrame) : list string :=
  columnNames df.

(** *** Extraction *)

Definition toArray (df : DataFrame) : list value :=
  foldl (λ out v, if strict_ne_undefined v then out ++ [v] else out)
        [] (values df).

Definition toPairs (df : DataFrame) : list (value * value) :=
  foldl (λ out (pair : value * value),
           if loose_ne_undefined pair.2 then out ++ [pair] else out)
        [] (pairs df).

Definition count (df : DataFrame) : nat :=
  foldl (λ total _, S total) 0%nat (values df).

Definition first (df : DataFrame) : result value :=
  match values df with
  | v :: _ => Ok v
  | [] => Throw "No values in Series."
  end.

Definition last (df : DataFrame) : result value :=
  let lastValue := foldl (λ _ v, v) VNull (values df) in
  if is_null lastValue then Throw "No values in Series." else Ok lastValue.

Definition any (df : DataFrame) (predicate : option (value → bool)) : bool :=
  match predicate with
  | Some p => existsb p (values df)
  | None => match values df with [] => false | _ :: _ => true end
  end.

Definition none (df : DataFrame) (predicate : option (value → bool)) : bool :=
  match predicate with
  | Some p => negb (existsb p (values df))
  | None => match values df with [] => true | _ :: _ => false end
  end.

(** The values of the pairs occur, in order, among the values: the
    section 3 invariant ("pairs is their zip"), weakened so that it also
    holds when the index is shorter than the values and after [concat]. *)
Definition pairs_follow_values (df : DataFrame) : Prop :=
  (pairs df).*2 `sublist_of` values df.

(** ** Series

    The [Series] class lives in another file of the library.  Its content
    record is the dataframe's without the column names. *)

Module Series.

Record t (V : Type) : Type := {
  index : index_seq;
  values : list V;
  pairs : list (value * V);
}.
Arguments index {V} _.
Arguments values {V} _.
Arguments pairs {V} _.

(** Modelled from the spec: the [Series] constructor builds a content record
    in which [index] and [values] are positionally congruent and [pairs] is
    their zip (section 3); the index defaults to the counting sequence, and
    a given [pairs] sequence provides values and index, as in
    [DataFrame.initFromConfig]. *)
Definition initFromConfig {V} (vals : option (list V)) (ix : option index_seq)
    (prs : option (list (value * V))) : t V :=
  let vals' :=
    match vals, prs with
    | Some vals, _ => vals
    | None, Some prs => ExtractValue prs
    | None, None => []
    end in
  let ix' :=
    match ix, prs with
    | Some ix, _ => ix
    | None, Some prs => IndexValues (ExtractIndex prs)
    | None, None => CountIterable
    end in
  {| index := ix';
     values := vals';
     pairs := match prs with
              | Some prs => prs
              | None => MultiIterable ix' vals'
              end |}.

End Series.

(** ** Named columns *)

(** [getSeries] returns a lazy series.  Its values are read from the rows
    when the series is traversed, which throws on a row that is [null] or
    [undefined]; the result is the outcome of that traversal. *)
Definition getSeries (df : DataFrame) (columnName : string)
  : result (Series.t value) :=
  vals ← mapM_result (λ row, get_prop row columnName) (values df);
  Ok (Series.initFromConfig (Some vals) (Some (index df)) None).

Fixpoint hasSeries_loop (existingColumnNames : list string) (columnNameLwr : string)
  : bool :=
  match existingColumnNames with
  | [] => false
  | existingColumnName :: rest =>
      if bool_decide (toLowerCase existingColumnName = columnNameLwr) then true
      else hasSeries_loop rest columnNameLwr
  end.

Definition hasSeries (df : DataFrame) (columnName : string) : bool :=
  let columnNameLwr := toLowerCase columnName in
  hasSeries_loop (getColumnNames df) columnNameLwr.


(** *** Operators of [Series] used by the dataframe

    Modelled from the spec: a series has the "same transform algebra as
    DataFrame" (section 2), each operator "composing Sequence-Core
    combinators over values/pairs/index" (section 4.3).  The definitions
    follow [DataFrame.select], [DataFrame.withIndex] and [DataFrame.deflate]. *)

(** Modelled from the spec: [Series.select(selector)] maps the values and
    keeps the index; the values are produced when the series is traversed,
    so a selector that throws makes the traversal throw. *)
Definition Series_select {A B} (s : Series.t A) (selector : A → nat → result B)
  : result (Series.t B) :=
  vals ← mapM_result (λ xi : A * nat, selector xi.1 xi.2)
                     (imap (λ i x, (x, i)) (Series.values s));
  Ok (Series.initFromConfig (Some vals) (Some (Series.index s)) None).

(** Modelled from the spec: [Series.withIndex(selector)] keeps the values
    and takes as index the selector's output on each value. *)
Definition Series_withIndex {A} (s : Series.t A) (newIndex : A → value)
  : Series.t A :=
  Series.initFromConfig (Some (Series.values s))
                        (Some (IndexValues (newIndex <$> Series.values s))) None.

(** Modelled from the spec: [Series.inflate(selector)] is the converse of
    [DataFrame.deflate]: a dataframe with the same index whose rows are the
    selector's output on each value. *)
Definition Series_inflate {A} (s : Series.t A) (selector : A → nat → value)
  : DataFrame :=
  initFromConfig
    {| Config.values := Some (SelectIterable (Series.values s) selector);
       Config.index := Some (Series.index s);
       Config.pairs :=
         Some (SelectIterable (Series.pairs s)
                 (λ (pair : value * A) index, (pair.1, selector pair.2 index)));
       Config.columnNames := None; Config.baked := None;
       Config.considerAllRows := None |}.

(** Modelled from the spec: the index "exposes values(), first()/last()/
    count()" (section 4.2); [first] fails on an empty index like
    [DataFrame.first]. *)
Definition Index_first (ix : index_seq) : result value :=
  match ix with
  | CountIterable => Ok (VNum 0)
  | IndexValues (k :: _) => Ok k
  | IndexValues [] => Throw "No values in Series."
  end.

Definition getIndex (df : DataFrame) : index_seq := index df.

(** ** Transformation operators

    Each operator returns [new DataFrame(() => config)]; the content of the
    new dataframe is [initFromConfig] of that configuration. *)

Definition where_ (df : DataFrame) (predicate : value → bool) : DataFrame :=
  initFromConfig
    {| Config.columnNames := Some (columnNames df);
       Config.values := Some (WhereIterable (values df) predicate);
       Config.pairs :=
         Some (WhereIterable (pairs df) (λ pair : value * value, predicate pair.2));
       Config.index := None; Config.baked := None;
       Config.considerAllRows := None |}.

Definition select (df : DataFrame) (selector : value → nat → value) : DataFrame :=
  initFromConfig
    {| Config.values := Some (SelectIterable (values df) selector);
       Config.index := Some (index df);
       Config.pairs := None; Config.columnNames := None;
       Config.baked := None; Config.considerAllRows := None |}.

Definition resetIndex (df : DataFrame) : DataFrame :=
  initFromConfig
    {| Config.columnNames := Some (columnNames df);
       Config.values := Some (values df);
       Config.index := None; Config.pairs := None;
       Config.baked := None; Config.considerAllRows := None |}.

(** The static [DataFrame.concat(dataframes)]. *)
Definition concat_static (dataframes : list DataFrame) : DataFrame :=
  let names := foldl (λ names content, names ++ columnNames content) [] dataframes in
  initFromConfig
    {| Config.columnNames := Some (makeDistinct names);
       Config.values := Some (ConcatIterable (values <$> dataframes));
       Config.pairs := Some (ConcatIterable (pairs <$> dataframes));
       Config.index := None; Config.baked := None;
       Config.considerAllRows := None |}.

(** The method [df.concat(...dataframes)]. *)
Definition concat_ (df : DataFrame) (dataframes : list DataFrame) : DataFrame :=
  concat_static (df :: dataframes).

(** *** Set algebra *)

Definition intersection (outer inner : DataFrame)
    (outerSelector innerSelector : option (value → value)) : DataFrame :=
  let outerSelector := default (λ v, v) outerSelector in
  let innerSelector := default (λ v, v) innerSelector in
  where_ outer (λ outerValue,
    let outerKey := outerSelector outerValue in
    any (where_ inner (λ innerValue, strict_eq outerKey (innerSelector innerValue)))
        None).

Definition except (outer inner : DataFrame)
    (outerSelector innerSelector : option (value → value)) : DataFrame :=
  let outerSelector := default (λ v, v) outerSelector in
  let innerSelector := default (λ v, v) innerSelector in
  where_ outer (λ outerValue,
    let outerKey := outerSelector outerValue in
    none (where_ inner (λ innerValue, strict_eq outerKey (innerSelector innerValue)))
         None).

(** *** Grouping *)

(** One iteration of the loop of [groupBy].  [groups] holds each group in
    order of discovery; [groupMap] records, by coerced key, which of these
    arrays a key refers to, so that pushing onto the array found in the map
    extends the group in place. *)
Definition groupBy_step (selector : value → nat → value)
    (st : list (list (value * value)) * gmap string nat * nat)
    (pair : value * value)
  : list (list (value * value)) * gmap string nat * nat :=
  let '(groups, groupMap, valueIndex) := st in
  let groupKey := selector pair.2 valueIndex in
  match groupMap !! toKey groupKey with
  | Some existingGroup =>
      (alter (λ group, group ++ [pair]) existingGroup groups, groupMap, S valueIndex)
  | None =>
      (groups ++ [[pair]], <[toKey groupKey := length groups]> groupMap, S valueIndex)
  end.

Definition groupBy_groups (df : DataFrame) (selector : value → nat → value)
  : list (list (value * value)) :=
  (foldl (groupBy_step selector) ([], ∅, 0) (pairs df)).1.1.

Definition fromPairs (group : list (value * value)) : DataFrame :=
  initFromConfig
    {| Config.pairs := Some group;
       Config.values := None; Config.index := None; Config.columnNames := None;
       Config.baked := None; Config.considerAllRows := None |}.

Definition groupBy (df : DataFrame) (selector : value → nat → value)
  : Series.t DataFrame :=
  Series.initFromConfig (Some (fromPairs <$> groupBy_groups df selector)) None None.

(** *** Joins *)

(** Modelled from the spec: [toMap] builds a key to value map from a
    sequence, each key coerced to a property name and a later item
    replacing an earlier one with the same key (section 4.3, withSeries,
    "a key→value map built from the incoming series' pairs"). *)
Definition toMap {I V} (items : list I) (keySelector : I → value)
    (valueSelector : I → V) : gmap string V :=
  foldl (λ output item, <[toKey (keySelector item) := valueSelector item]> output)
        ∅ items.

(** Modelled from the spec: the same map when the key selector may throw;
    the first throw ends the loop. *)
Fixpoint toMap_throwing {I V} (items : list I) (keySelector : I → result value)
    (valueSelector : I → V) (output : gmap string V) : result (gmap string V) :=
  match items with
  | [] => Ok output
  | item :: rest =>
      key ← keySelector item;
      toMap_throwing rest keySelector valueSelector
                     (<[toKey key := valueSelector item]> output)
  end.

(** Modelled from the spec: [Series.toObject] is [toMap] over the values of
    the series, as [DataFrame.toObject] is over the rows. *)
Definition Series_toObject {I V} (s : Series.t I) (keySelector : I → result value)
    (valueSelector : I → V) : result (gmap string V) :=
  toMap_throwing (Series.values s) keySelector valueSelector ∅.

Definition fromValues (vals : list value) : DataFrame :=
  initFromConfig
    {| Config.values := Some vals;
       Config.pairs := None; Config.index := None; Config.columnNames := None;
       Config.baked := None; Config.considerAllRows := None |}.

(** The rows pushed for one outer row. *)
Definition join_step (outerKeySelector : value → value)
    (resultSelector : value → value → value) (innerMap : gmap string DataFrame)
    (output : list value) (outerValue : value) : list value :=
  let outerKey := outerKeySelector outerValue in
  match innerMap !! toKey outerKey with
  | Some innerGroup =>
      foldl (λ output innerValue, output ++ [resultSelector outerValue innerValue])
            output (values innerGroup)
  | None => output
  end.

(** The result is the outcome of running the configuration function of the
    lazy dataframe that [join] returns. *)
Definition join (outer inner : DataFrame)
    (outerKeySelector innerKeySelector : value → value)
    (resultSelector : value → value → value) : result DataFrame :=
  innerMap ← Series_toObject (groupBy inner (λ v _, innerKeySelector v))
                             (λ group, v ← first group; Ok (innerKeySelector v))
                             (λ group, group);
  Ok (fromValues
        (foldl (join_step outerKeySelector resultSelector innerMap) []
               (values outer))).

Definition joinOuter (outer inner : DataFrame)
    (outerKeySelector innerKeySelector : value → value)
    (resultSelector : value → value → value) : result DataFrame :=
  let outerResult :=
    resetIndex (select (except outer inner (Some outerKeySelector) (Some innerKeySelector))
                       (λ outer _, resultSelector outer VNull)) in
  let innerResult :=
    resetIndex (select (except inner outer (Some innerKeySelector) (Some outerKeySelector))
                       (λ inner _, resultSelector VNull inner)) in
  intersectionResults ←
    join outer inner outerKeySelector innerKeySelector resultSelector;
  Ok (resetIndex (concat_ (concat_ outerResult [intersectionResults]) [innerResult])).

Definition joinOuterLeft (outer inner : DataFrame)
    (outerKeySelector innerKeySelector : value → value)
    (resultSelector : value → value → value) : result DataFrame :=
  let outerResult :=
    resetIndex (select (except outer inner (Some outerKeySelector) (Some innerKeySelector))
                       (λ outer _, resultSelector outer VNull)) in
  intersectionResults ←
    join outer inner outerKeySelector innerKeySelector resultSelector;
  Ok (resetIndex (concat_ outerResult [intersectionResults])).

Definition joinOuterRight (outer inner : DataFrame)
    (outerKeySelector innerKeySelector : value → value)
    (resultSelector : value → value → value) : result DataFrame :=
  let innerResult :=
    resetIndex (select (except inner outer (Some innerKeySelector) (Some outerKeySelector))
                       (λ inner _, resultSelector VNull inner)) in
  intersectionResults ←
    join outer inner outerKeySelector innerKeySelector resultSelector;
  Ok (resetIndex (concat_ intersectionResults [innerResult])).

(** ** Sorting *)

Module Sort.

Inductive Direction : Type := Ascending | Descending.

Record ISortSpec (A : Type) : Type := {
  sortLevel : nat;
  selector : A → nat → value;
  direction : Direction;
}.
Arguments sortLevel {A} _.
Arguments selector {A} _.
Arguments direction {A} _.

(** Insertion sort that keeps the input order of elements that compare
    equal: the head goes before every element it is not greater than. *)
Fixpoint insert_sorted {A} (le : A → A → bool) (x : A) (l : list A) : list A :=
  match l with
  | [] => [x]
  | y :: rest => if le x y then x :: y :: rest else y :: insert_sorted le x rest
  end.

Fixpoint stable_sort {A} (le : A → A → bool) (l : list A) : list A :=
  match l with
  | [] => []
  | x :: rest => insert_sorted le x (stable_sort le rest)
  end.

(** Modelled from the spec: "default relational comparison by detected
    value type" (section 4.1): numbers by magnitude, strings
    lexicographically, booleans with false first; values of different or
    other types have no order of their own and compare as equal. *)
Definition compare_values (a b : value) : comparison :=
  match a, b with
  | VNum x, VNum y => Z.compare x y
  | VStr x, VStr y => String.compare x y
  | VBool x, VBool y => Bool.compare x y
  | _, _ => Eq
  end.

(** Modelled from the spec: the elements are "compared level-by-level"
    along the chain of sort specs (section 3), the first level that tells
    them apart deciding, in its direction. *)
Fixpoint compare_levels {A} (specs : list (ISortSpec A)) (a b : A * nat)
  : comparison :=
  match specs with
  | [] => Eq
  | spec :: rest =>
      match compare_values (selector spec a.1 a.2) (selector spec b.1 b.2) with
      | Eq => compare_levels rest a b
      | c => match direction spec with
             | Ascending => c
             | Descending => CompOpp c
             end
      end
  end.

Definition not_after {A} (specs : list (ISortSpec A)) (a b : A * nat) : bool :=
  match compare_levels specs a b with
  | Gt => false
  | _ => true
  end.

(** Modelled from the spec: [OrderedIterable] is the "stable multi-key
    sort: full materialize, compare by sort-spec chain, ...; ties preserve
    input order" (section 4.1).  The specs are taken by ascending level and
    each selector receives the element and its position in the input. *)
Definition OrderedIterable {A} (iterable : list A) (sortSpec : list (ISortSpec A))
  : list A :=
  let byLevel := stable_sort (λ s s', bool_decide (sortLevel s ≤ sortLevel s')) sortSpec in
  (stable_sort (not_after byLevel) (imap (λ i x, (x, i)) iterable)).*1.

End Sort.

(** ** OrderedDataFrame *)

Module Ordered.

(** The fields of the class, with the content of the [DataFrame] it
    extends. *)
#[warnings="-register-all"] Inductive t : Type := Build {
  parent : option t;
  selector : value → nat → value;
  direction : Sort.Direction;
  origValues : list value;
  origPairs : list (value * value);
  content : IDataFrameContent;
}.

End Ordered.

Abbreviation OrderedDataFrame := Ordered.t.

Definition makeSortSpec {A} (sortLevel : nat) (selector : A → nat → value)
    (direction : Sort.Direction) : Sort.ISortSpec A :=
  {| Sort.sortLevel := sortLevel; Sort.selector := selector;
     Sort.direction := direction |}.

Definition makePairsSelector (selector : value → nat → value)
  : value * value → nat → value :=
  λ pair index, selector pair.2 index.

(** The [while (parent !== null)] loop of the constructor, entered with a
    parent that is not [null].  It returns the spec arrays, the level
    counter and the variable [parent] as they are when the loop ends. *)
Fixpoint parents_loop (parent : OrderedDataFrame)
    (valueSortSpecs : list (Sort.ISortSpec value))
    (pairSortSpecs : list (Sort.ISortSpec (value * value)))
    (sortLevel : nat) {struct parent}
  : list (Sort.ISortSpec value) * list (Sort.ISortSpec (value * value)) * nat
    * option OrderedDataFrame :=
  let valueSortSpecs :=
    valueSortSpecs
      ++ [makeSortSpec sortLevel (Ordered.selector parent) (Ordered.direction parent)] in
  let pairSortSpecs :=
    pairSortSpecs
      ++ [makeSortSpec sortLevel (makePairsSelector (Ordered.selector parent))
                       (Ordered.direction parent)] in
  let sortLevel := S sortLevel in
  match Ordered.parent parent with
  | Some next => parents_loop next valueSortSpecs pairSortSpecs sortLevel
  | None => (valueSortSpecs, pairSortSpecs, sortLevel, Ordered.parent parent)
  end.

(** The statements of the constructor up to the call of [super]: the two
    arrays of sort specs, and the variable [parent] as the loop leaves it. *)
Definition constructor_specs (selector : value → nat → value)
    (direction : Sort.Direction) (parent : option OrderedDataFrame)
  : list (Sort.ISortSpec value) * list (Sort.ISortSpec (value * value))
    * option OrderedDataFrame :=
  let '(valueSortSpecs, pairSortSpecs, sortLevel, parent) :=
    match parent with
    | Some p => parents_loop p [] [] 0
    | None => ([], [], 0, parent)
    end in
  (valueSortSpecs ++ [makeSortSpec sortLevel selector direction],
   pairSortSpecs ++ [makeSortSpec sortLevel (makePairsSelector selector) direction],
   parent).

(** [new OrderedDataFrame(values, pairs, selector, direction, parent)]:
    [this.parent] is assigned from the variable [parent] after the loop. *)
Definition OrderedDataFrame_new (vals : list value) (prs : list (value * value))
    (selector : value → nat → value) (direction : Sort.Direction)
    (parent : option OrderedDataFrame) : OrderedDataFrame :=
  let '(valueSortSpecs, pairSortSpecs, parent) :=
    constructor_specs selector direction parent in
  {| Ordered.content :=
       initFromConfig
         {| Config.values := Some (Sort.OrderedIterable vals valueSortSpecs);
            Config.pairs := Some (Sort.OrderedIterable prs pairSortSpecs);
            Config.index := None; Config.columnNames := None;
            Config.baked := None; Config.considerAllRows := None |};
     Ordered.parent := parent;
     Ordered.selector := selector;
     Ordered.direction := direction;
     Ordered.origValues := vals;
     Ordered.origPairs := prs |}.

Definition orderBy (df : DataFrame) (selector : value → nat → value)
  : OrderedDataFrame :=
  OrderedDataFrame_new (values df) (pairs df) selector Sort.Ascending None.

Definition orderByDescending (df : DataFrame) (selector : value → nat → value)
  : OrderedDataFrame :=
  OrderedDataFrame_new (values df) (pairs df) selector Sort.Descending None.

Definition thenBy (this : OrderedDataFrame) (selector : value → nat → value)
  : OrderedDataFrame :=
  OrderedDataFrame_new (Ordered.origValues this) (Ordered.origPairs this)
                       selector Sort.Ascending (Some this).

Definition thenByDescending (this : OrderedDataFrame) (selector : value → nat → value)
  : OrderedDataFrame :=
  OrderedDataFrame_new (Ordered.origValues this) (Ordered.origPairs this)
                       selector Sort.Descending (Some this).

(** ** Windows *)

(** Modelled from the spec: the variable window starts a new chunk
    "whenever comparator(prev,curr) is false; comparator compares adjacent
    elements only" (section 4.1).  [current] is the chunk being filled and
    [prev] its last pair. *)
Fixpoint variable_windows (comparer : value → value → bool)
    (prs : list (value * value)) (current : list (value * value))
    (prev : value * value) : list (list (value * value)) :=
  match prs with
  | [] => [current]
  | curr :: rest =>
      if comparer prev.2 curr.2
      then variable_windows comparer rest (current ++ [curr]) curr
      else current :: variable_windows comparer rest [curr] curr
  end.

(** Modelled from the spec: each window is "a fresh DataFrame sliced from a
    ... comparator-delimited pair run, reusing the parent's column-name
    list" (section 4.3). *)
Definition DataFrameVariableWindowIterable (names : list string)
    (prs : list (value * value)) (comparer : value → value → bool)
  : list DataFrame :=
  match prs with
  | [] => []
  | p :: rest =>
      (λ window,
         initFromConfig
           {| Config.columnNames := Some names;
              Config.pairs := Some window;
              Config.values := None; Config.index := None;
              Config.baked := None; Config.considerAllRows := None |})
        <$> variable_windows comparer rest [p] p
  end.

Definition variableWindow (df : DataFrame) (comparer : value → value → bool)
  : Series.t DataFrame :=
  Series.initFromConfig
    (Some (DataFrameVariableWindowIterable (columnNames df) (pairs df) comparer))
    None None.

Definition groupSequentialBy (df : DataFrame) (selector : option (value → value))
  : Series.t DataFrame :=
  let selector := default (λ v, v) selector in
  variableWindow df (λ a b, strict_eq (selector a) (selector b)).

(** The result is the outcome of traversing the lazy dataframe that
    [sequentialDistinct] returns. *)
Definition sequentialDistinct (df : DataFrame) (selector : option (value → value))
  : result DataFrame :=
  let selector := default (λ v, v) selector in
  selected ←
    Series_select (variableWindow df (λ a b, strict_eq (selector a) (selector b)))
      (λ window _,
         i ← Index_first (getIndex window);
         v ← first window;
         Ok (i, v));
  Ok (Series_inflate (Series_withIndex selected (λ pair, pair.1))
                     (λ pair _, pair.2)).

(** The runs of adjacent pairs that [variableWindow] cuts a dataframe
    into. *)
Definition windows_of (df : DataFrame) (comparer : value → value → bool)
  : list (list (value * value)) :=
  match pairs df with
  | [] => []
  | p :: rest => variable_windows comparer rest [p] p
  end.

(** ** Merging a series into a dataframe *)

(** The two methods of the incoming series that [withSeries] calls; the
    series is taken as what these methods return. *)
Record ISeries : Type := {
  ISeries_toPairs : list (value * value);
  ISeries_inflate : (value → nat → value) → DataFrame;
}.

(** Modelled from the spec: [Series.toPairs] leaves out the entries whose
    value is [undefined] (section 4.4). *)
Definition Series_toPairs (s : Series.t value) : list (value * value) :=
  List.filter (λ pair : value * value, strict_ne_undefined pair.2) (Series.pairs s).

Definition Series_as_ISeries (s : Series.t value) : ISeries :=
  {| ISeries_toPairs := Series_toPairs s;
     ISeries_inflate := Series_inflate s |}.

(** The series to import: the argument itself, or what it returns for the
    dataframe when it is a function. *)
Definition importSeries_of (df : DataFrame) (series : ISeries + (DataFrame → ISeries))
  : ISeries :=
  match series with
  | inr selector => selector df
  | inl s => s
  end.

(** [withSeries(columnName, series)], where [series] is a series or a
    function from the dataframe to a series.  [alloc i] is the identity of
    the object created for the row at position [i]. *)
Definition withSeries (alloc : nat → nat) (df : DataFrame) (columnName : string)
    (series : ISeries + (DataFrame → ISeries)) : DataFrame :=
  let importSeries := importSeries_of df series in
  if none df None then
    ISeries_inflate importSeries
      (λ value i, VObj (alloc i) (set_prop [] columnName value))
  else
    let seriesValueMap :=
      toMap (ISeries_toPairs importSeries)
            (λ pair : value * value, pair.1) (λ pair : value * value, pair.2) in
    let newColumnNames := makeDistinct (getColumnNames df ++ [columnName]) in
    initFromConfig
      {| Config.columnNames := Some newColumnNames;
         Config.index := Some (index df);
         Config.pairs :=
           Some (SelectIterable (pairs df)
                   (λ (pair : value * value) i,
                      let index := pair.1 in
                      let value := pair.2 in
                      let modified :=
                        set_prop (own_props value) columnName
                                 (default VUndefined (seriesValueMap !! toKey index)) in
                      (index, VObj (alloc i) modified)));
         Config.values := None; Config.baked := None;
         Config.considerAllRows := None |}.

(** The value the series holds for an index: that of the last of its pairs
    whose index is coerced to the same property name, [undefined] when
    there is none. *)
Definition series_value_at (seriesPairs : list (value * value)) (ix : value) : value :=
  match list.last (List.filter (λ pair : value * value,
                                  bool_decide (toKey pair.1 = toKey ix))
                               seriesPairs) with
  | Some found => found.2
  | None => VUndefined
  end.

(** ** Further operators of [DataFrame] *)

(** *** Quantifiers and lookup *)

(** The loop of [all]: [count] is the number of rows seen so far. *)
Fixpoint all_loop (predicate : value → bool) (vals : list value) (count : nat) : bool :=
  match vals with
  | [] => bool_decide (0 < count)
  | v :: rest =>
      if negb (predicate v) then false else all_loop predicate rest (S count)
  end.

Definition all (df : DataFrame) (predicate : value → bool) : bool :=
  all_loop predicate (values df) 0.

Fixpoint at_loop (prs : list (value * value)) (index : value) : value :=
  match prs with
  | [] => VUndefined
  | (key, row) :: rest =>
      if strict_eq key index then row else at_loop rest index
  end.

(** [df.at(index)] *)
Definition at_ (df : DataFrame) (index : value) : value :=
  if none df None then VUndefined else at_loop (pairs df) index.

(** *** Materialising *)

Definition bake (df : DataFrame) : DataFrame :=
  if isBaked df then df
  else
    initFromConfig
      {| Config.columnNames := Some (getColumnNames df);
         Config.values := Some (toArray df);
         Config.pairs := Some (toPairs df);
         Config.baked := Some true;
         Config.index := None; Config.considerAllRows := None |}.

(** *** Taking rows from the front *)

(** Modelled from the spec: [TakeIterable(iterable, n)] yields the first
    [n] elements, none when [n ≤ 0] (section 4.1). *)
Definition TakeIterable {A} (l : list A) (n : Z) : list A := take (Z.to_nat n) l.

Definition TakeIndex (ix : index_seq) (n : Z) : index_seq :=
  match ix with
  | CountIterable => IndexValues (count_from 0 (Z.to_nat n))
  | IndexValues l => IndexValues (TakeIterable l n)
  end.

(** [df.take(numRows)] *)
Definition DataFrame_take (df : DataFrame) (numRows : Z) : DataFrame :=
  initFromConfig
    {| Config.columnNames := Some (columnNames df);
       Config.index := Some (TakeIndex (index df) numRows);
       Config.values := Some (TakeIterable (values df) numRows);
       Config.pairs := Some (TakeIterable (pairs df) numRows);
       Config.baked := None; Config.considerAllRows := None |}.

(** [df.head(numValues)], for an integer [numValues]. *)
Definition DataFrame_head (df : DataFrame) (numValues : Z) : DataFrame :=
  if bool_decide (numValues = 0%Z) then initEmpty
  else
    let toTake :=
      if bool_decide (numValues < 0)%Z
      then (Z.of_nat (count df) - Z.abs numValues)%Z
      else numValues in
    DataFrame_take df toTake.

(** Modelled from the spec: [TakeWhileIterable] yields the elements before
    the first one that fails the predicate, [SkipWhileIterable] that one and
    those after it (section 4.1). *)
Fixpoint TakeWhileIterable {A} (l : list A) (p : A → bool) : list A :=
  match l with
  | [] => []
  | x :: rest => if p x then x :: TakeWhileIterable rest p else []
  end.

Fixpoint SkipWhileIterable {A} (l : list A) (p : A → bool) : list A :=
  match l with
  | [] => []
  | x :: rest => if p x then SkipWhileIterable rest p else x :: rest
  end.

Definition takeWhile (df : DataFrame) (predicate : value → bool) : DataFrame :=
  initFromConfig
    {| Config.columnNames := Some (columnNames df);
       Config.values := Some (TakeWhileIterable (values df) predicate);
       Config.pairs :=
         Some (TakeWhileIterable (pairs df) (λ pair : value * value, predicate pair.2));
       Config.index := None; Config.baked := None;
       Config.considerAllRows := None |}.

Definition takeUntil (df : DataFrame) (predicate : value → bool) : DataFrame :=
  takeWhile df (λ value, negb (predicate value)).

Definition skipWhile (df : DataFrame) (predicate : value → bool) : DataFrame :=
  initFromConfig
    {| Config.columnNames := Some (columnNames df);
       Config.values := Some (SkipWhileIterable (values df) predicate);
       Config.pairs :=
         Some (SkipWhileIterable (pairs df) (λ pair : value * value, predicate pair.2));
       Config.index := None; Config.baked := None;
       Config.considerAllRows := None |}.

Definition skipUntil (df : DataFrame) (predicate : value → bool) : DataFrame :=
  skipWhile df (λ value, negb (predicate value)).

(** *** Adding a pair, falling back to a default *)

Definition insertPair (df : DataFrame) (pair : value * value) : DataFrame :=
  concat_ (fromPairs [pair]) [df].

Definition appendPair (df : DataFrame) (pair : value * value) : DataFrame :=
  concat_ df [fromPairs [pair]].

(** [defaultSequence] is a dataframe or an array of rows. *)
Definition defaultIfEmpty (df : DataFrame) (defaultSequence : DataFrame + list value)
  : result DataFrame :=
  if none df None then
    match defaultSequence with
    | inl other => Ok other
    | inr arr => DataFrame_new (ArrayArg arr)
    end
  else Ok df.

(** *** The index *)

(** [df.withIndex(newIndex)], where [newIndex] is a sequence of keys or a
    function from a row to its key. *)
Definition withIndex (df : DataFrame) (newIndex : list value + (value → value))
  : DataFrame :=
  match newIndex with
  | inr selector =>
      initFromConfig
        {| Config.columnNames := Some (columnNames df);
           Config.values := Some (values df);
           Config.index :=
             Some (IndexValues (SelectIterable (values df) (λ v _, selector v)));
           Config.pairs := None; Config.baked := None;
           Config.considerAllRows := None |}
  | inl keys =>
      initFromConfig
        {| Config.columnNames := Some (columnNames df);
           Config.values := Some (values df);
           Config.index := Some (IndexValues keys);
           Config.pairs := None; Config.baked := None;
           Config.considerAllRows := None |}
  end.

(** [df.setIndex(columnName)]: the series of the column is the new index.
    The result is the outcome of traversing that series. *)
Definition setIndex (df : DataFrame) (columnName : string) : result DataFrame :=
  series ← getSeries df columnName;
  Ok (withIndex df (inl (Series.values series))).

(** *** Columns *)

Definition ensureSeries (alloc : nat → nat) (df : DataFrame) (columnName : string)
    (series : ISeries + (DataFrame → ISeries)) : DataFrame :=
  if hasSeries df columnName then df
  else withSeries alloc df columnName series.

(** [delete clone[name]] *)
Fixpoint delete_prop (props : list (string * value)) (name : string)
  : list (string * value) :=
  match props with
  | [] => []
  | (k, v) :: rest =>
      if bool_decide (k = name) then delete_prop rest name
      else (k, v) :: delete_prop rest name
  end.

(** [array.indexOf(name) === -1] *)
Definition not_listed (names : list string) (name : string) : bool :=
  negb (bool_decide (name ∈ names)).

(** [df.dropSeries(columns)]; a single column name is a list of one.
    [alloc i] and [allocPairs i] are the identities of the clones made of
    the row at position [i], one for the values and one for the pairs. *)
Definition dropSeries (alloc allocPairs : nat → nat) (df : DataFrame)
    (columnOrColumns : list string) : DataFrame :=
  let newColumnNames := List.filter (not_listed columnOrColumns) (columnNames df) in
  let drop (row : value) : list (string * value) :=
    foldl delete_prop (own_props row) columnOrColumns in
  initFromConfig
    {| Config.columnNames := Some newColumnNames;
       Config.index := Some (index df);
       Config.values :=
         Some (SelectIterable (values df) (λ row i, VObj (alloc i) (drop row)));
       Config.pairs :=
         Some (SelectIterable (pairs df)
                 (λ (pair : value * value) i,
                    (pair.1, VObj (allocPairs i) (drop pair.2))));
       Config.baked := None; Config.considerAllRows := None |}.

(** The loop [output[columnName] = value[columnName]] over the columns. *)
Fixpoint copy_columns (row : value) (names : list string)
    (output : list (string * value)) : result (list (string * value)) :=
  match names with
  | [] => Ok output
  | columnName :: rest =>
      v ← get_prop row columnName;
      copy_columns row rest (set_prop output columnName v)
  end.

(** [df.subset(columnNames)].  Reading a column of a row that is [null] or
    [undefined] throws when the rows are traversed; the result is the
    outcome of that traversal.  [alloc i] and [allocPairs i] are the
    identities of the objects made for the row at position [i], one for the
    values and one for the pairs. *)
Definition subset (alloc allocPairs : nat → nat) (df : DataFrame) (names : list string)
  : result DataFrame :=
  vals ← mapM_result
           (λ xi : value * nat,
              output ← copy_columns xi.1 names []; Ok (VObj (alloc xi.2) output))
           (imap (λ i v, (v, i)) (values df));
  prs ← mapM_result
           (λ xi : value * value * nat,
              output ← copy_columns xi.1.2 names [];
              Ok (xi.1.1, VObj (allocPairs xi.2) output))
           (imap (λ i pair, (pair, i)) (pairs df));
  Ok (initFromConfig
        {| Config.columnNames := Some names;
           Config.index := Some (index df);
           Config.values := Some vals;
           Config.pairs := Some prs;
           Config.baked := None; Config.considerAllRows := None |}).

(** [reorderSeries] has the body of [subset]. *)
Definition reorderSeries (alloc allocPairs : nat → nat) (df : DataFrame)
    (names : list string) : result DataFrame :=
  subset alloc allocPairs df names.

(** The column list built by [bringToFront] and [bringToBack]: the
    requested columns that exist, and the columns that were not requested. *)
Definition columnsToMove (existingColumns columnOrColumns : list string) : list string :=
  List.filter (λ columnToMove, bool_decide (columnToMove ∈ existingColumns))
              columnOrColumns.

Definition untouchedColumnNames (existingColumns columnOrColumns : list string)
  : list string :=
  List.filter (not_listed columnOrColumns) existingColumns.

Definition bringToFront (df : DataFrame) (columnOrColumns : list string) : DataFrame :=
  let existingColumns := columnNames df in
  initFromConfig
    {| Config.columnNames :=
         Some (columnsToMove existingColumns columnOrColumns
               ++ untouchedColumnNames existingColumns columnOrColumns);
       Config.index := Some (index df);
       Config.values := Some (values df);
       Config.pairs := Some (pairs df);
       Config.baked := None; Config.considerAllRows := None |}.

Definition bringToBack (df : DataFrame) (columnOrColumns : list string) : DataFrame :=
  let existingColumns := columnNames df in
  initFromConfig
    {| Config.columnNames :=
         Some (untouchedColumnNames existingColumns columnOrColumns
               ++ columnsToMove existingColumns columnOrColumns);
       Config.index := Some (index df);
       Config.values := Some (values df);
       Config.pairs := Some (pairs df);
       Config.baked := None; Config.considerAllRows := None |}.

(** [df.toRows()]: one array per row, with the cells in column order. *)
Definition toRows (df : DataFrame) : result (list (list value)) :=
  let names := getColumnNames df in
  mapM_result (λ row, mapM_result (λ name, get_prop row name) names)
              (values df).

(** *** Renaming columns *)

(** [remapValue]: for each entry of the rename spec in turn, the clone
    gets the new name and loses the old one. *)
Definition remapValue (newColumnNames : list (string * string)) (row : value)
  : list (string * value) :=
  foldl (λ clone (entry : string * string),
           delete_prop
             (set_prop clone entry.2 (default VUndefined (assoc entry.1 clone)))
             entry.1)
        (own_props row) newColumnNames.

Fixpoint assoc_name (name : string) (spec : list (string * string)) : option string :=
  match spec with
  | [] => None
  | (k, v) :: rest => if bool_decide (k = name) then Some v else assoc_name name rest
  end.

(** [df.renameSeries(newColumnNames)]: the spec object is the list of its
    entries in key order, each key once.  [alloc i] and [allocPairs i] are
    the identities of the clones made of the row at position [i]. *)
Definition renameSeries (alloc allocPairs : nat → nat) (df : DataFrame)
    (newColumnNames : list (string * string)) : DataFrame :=
  let renamedColumns :=
    (λ existingColumnName,
       default existingColumnName (assoc_name existingColumnName newColumnNames))
      <$> columnNames df in
  initFromConfig
    {| Config.columnNames := Some renamedColumns;
       Config.index := Some (index df);
       Config.values :=
         Some (SelectIterable (values df)
                 (λ row i, VObj (alloc i) (remapValue newColumnNames row)));
       Config.pairs :=
         Some (SelectIterable (pairs df)
                 (λ (pair : value * value) i,
                    (pair.1, VObj (allocPairs i) (remapValue newColumnNames pair.2))));
       Config.baked := None; Config.considerAllRows := None |}.

(** *** Chains of orderings *)

(** The ordered dataframes that [orderBy], [orderByDescending], [thenBy]
    and [thenByDescending] build from a dataframe. *)
Inductive ordering_of (df : DataFrame) : OrderedDataFrame → Prop :=
| ordering_orderBy selector :
    ordering_of df (orderBy df selector)
| ordering_orderByDescending selector :
    ordering_of df (orderByDescending df selector)
| ordering_thenBy ordered selector :
    ordering_of df ordered → ordering_of df (thenBy ordered selector)
| ordering_thenByDescending ordered selector :
    ordering_of df ordered → ordering_of df (thenByDescending ordered selector).

(** ** Column renaming, stated by position

    [occurrences lwr names] counts the names that lower-case to [lwr];
    [renamed names i n] is the name expected at position [i]: a name
    without a case-insensitive duplicate is kept, and the k-th of several
    duplicates gets the suffix [.k], the first one included. *)

Fixpoint occurrences (lwr : string) (names : list string) : nat :=
  match names with
  | [] => 0
  | n :: rest =>
      (if bool_decide (toLowerCase n = lwr) then 1 else 0) + occurrences lwr rest
  end.

Definition renamed (names : list string) (i : nat) (n : string) : string :=
  if bool_decide (1 < occurrences (toLowerCase n) names) then
    n +:+ "." +:+ pretty (S (occurrences (toLowerCase n) (take i names)))
  else n.


(** What the second loop keeps in [columnNoMap] once it has gone through
    [seen]: the number for the next duplicate of each key. *)
Definition numbering_of (names seen : list string) (columnNoMap : gmap string nat) : Prop :=
  ∀ k, 1 < occurrences k names →
       default 1 (columnNoMap !! k) = S (occurrences k seen).


(** The characters a decimal numeral is made of. *)
Definition is_digit (c : Ascii.ascii) : bool :=
  bool_decide (48 ≤ Ascii.nat_of_ascii c ≤ 57).


(** ** Grouping, stated by key

    [keyed selector n prs] labels each pair with the property name its
    selector output is coerced to ([n] is the position of the first pair);
    [group_of k kps] collects, in order, the pairs labelled [k]. *)





(** ** Outer joins, stated by segment *)

Section segments.
Variables (outer inner : DataFrame).
Variables (outerKeySelector innerKeySelector : value → value).
Variable (resultSelector : value → value → value).





End segments.

(** ** Example dataframes *)

Definition two_rows_final_null : DataFrame :=
  initFromConfig
    {| Config.values := Some [VObj 0 [("A", VNum 1)]; VNull];
       Config.index := None; Config.pairs := None; Config.columnNames := None;
       Config.baked := None; Config.considerAllRows := None |}.



(** One column [A]; the row also carries a field [a]. *)
Definition row_with_extra_field : DataFrame :=
  initFromConfig
    {| Config.values := Some [VObj 0 [("A", VNum 1); ("a", VNum 2)]];
       Config.index := None; Config.pairs := None;
       Config.columnNames := Some ["A"];
       Config.baked := None; Config.considerAllRows := None |}.

Definition one_column : DataFrame :=
  initFromConfig
    {| Config.values := Some [VObj 0 [("A", VNum 1)]; VObj 1 [("A", VNum 5)]];
       Config.index := None; Config.pairs := None;
       Config.columnNames := Some ["A"];
       Config.baked := None; Config.considerAllRows := None |}.

(** Four rows that are their own keys: 2, 1, "1", 2. *)
Definition keys_2_1_s1_2 : DataFrame :=
  fromValues [VNum 2; VNum 1; VStr "1"; VNum 2].

(** Rows [{id: 1}], [{id: 2}] and [{id: 2}], [{id: 3}], joined on [id]. *)
Definition outer_ids_1_2 : DataFrame :=
  fromValues [VObj 1 [("id", VNum 1)]; VObj 2 [("id", VNum 2)]].

Definition inner_ids_2_3 : DataFrame :=
  fromValues [VObj 3 [("id", VNum 2)]; VObj 4 [("id", VNum 3)]].

Definition row_id (row : value) : value :=
  default VUndefined (assoc "id" (own_props row)).

Definition merge_ids (o i : value) : value :=
  VObj 10 [("o", match o with VNull => VNull | _ => row_id o end);
           ("i", match i with VNull => VNull | _ => row_id i end)].

(** Two rows that differ in [a] only; [by_a], [by_b], [by_c] select the
    columns. *)
Definition rows_a2_a1 : DataFrame :=
  fromValues [VObj 1 [("a", VNum 2); ("b", VNum 1); ("c", VNum 1)];
              VObj 2 [("a", VNum 1); ("b", VNum 1); ("c", VNum 1)]].

Definition column (name : string) (row : value) (index : nat) : value :=
  default VUndefined (assoc name (own_props row)).

(** Three rows; the first two agree on [A]. *)
Definition run_of_two_then_one : DataFrame :=
  fromValues [VObj 1 [("A", VNum 1); ("B", VNum 10)];
              VObj 2 [("A", VNum 1); ("B", VNum 20)];
              VObj 3 [("A", VNum 2); ("B", VNum 30)]].

(** A dataframe with the single column [A] and the default index, and a
    series on the index 1, 0. *)
Definition two_rows_A : DataFrame :=
  fromValues [VObj 1 [("A", VNum 10)]; VObj 2 [("A", VNum 20)]].

Definition series_at_1_0 : ISeries :=
  Series_as_ISeries
    (Series.initFromConfig (Some [VStr "x"; VStr "y"])
                           (Some (IndexValues [VNum 1; VNum 0])) None).

(** Rows with the index 5, 6, 7. *)
Definition indexed_5_6_7 : DataFrame :=
  initFromConfig
    {| Config.values := Some [VNum 10; VNum 20; VNum 30];
       Config.index := Some (IndexValues [VNum 5; VNum 6; VNum 7]);
       Config.pairs := None; Config.columnNames := None;
       Config.baked := None; Config.considerAllRows := None |}.

(** * Properties *)

(** ** Loops that push onto an output array *)

Lemma foldl_push_filter {A} (p : A → bool) (l acc : list A) :
  foldl (λ out v, if p v then out ++ [v] else out) acc l = acc ++ List.filter p l.
Proof.
  revert acc. induction l as [|x l IH]; intros acc; simpl.
  - by rewrite app_nil_r.
  - rewrite IH. destruct (p x); [by rewrite <- app_assoc | done].
Qed.

Lemma toArray_filter (df : DataFrame) :
  toArray df = List.filter strict_ne_undefined (values df).
Proof. unfold toArray. by rewrite foldl_push_filter. Qed.

Lemma toPairs_filter (df : DataFrame) :
  toPairs df = List.filter (λ p : value * value, loose_ne_undefined p.2) (pairs df).
Proof. unfold toPairs. by rewrite foldl_push_filter. Qed.

Lemma foldl_count {A} (l : list A) (n : nat) :
  foldl (λ total _, S total) n l = (n + length l)%nat.
Proof.
  revert n. induction l as [|x l IH]; intros n; simpl; [lia|].
  rewrite IH. lia.
Qed.

Lemma count_length (df : DataFrame) : count df = length (values df).
Proof. unfold count. by rewrite foldl_count. Qed.

(** ** [first], [last] and [any] *)

Lemma any_nonempty (df : DataFrame) : any df None = true ↔ values df ≠ [].
Proof. unfold any. destruct (values df); split; congruence. Qed.

Lemma first_empty (df : DataFrame) :
  values df = [] → first df = Throw "No values in Series.".
Proof. unfold first. by intros ->. Qed.

Lemma last_empty (df : DataFrame) :
  values df = [] → last df = Throw "No values in Series.".
Proof. unfold last. by intros ->. Qed.

Lemma first_any (df : DataFrame) :
  any df None = true → ∃ v rest, values df = v :: rest ∧ first df = Ok v.
Proof.
  unfold any, first. destruct (values df) as [|v rest]; [done|]. eauto.
Qed.

Lemma foldl_keep_last (init : value) (l : list value) (v : value) :
  foldl (λ _ w, w) init (l ++ [v]) = v.
Proof. by rewrite foldl_app. Qed.

(** [last] returns the final row whenever that row is not [null]. *)
Lemma last_any_not_null (df : DataFrame) (front : list value) (v : value) :
  values df = front ++ [v] → is_null v = false → last df = Ok v.
Proof.
  intros Hv Hn. unfold last. rewrite Hv, foldl_keep_last. by rewrite Hn.
Qed.

(** The emptiness test of [last] compares the last value seen with [null],
    so a final row that is [null] is taken for no row at all. *)
Lemma last_final_null (df : DataFrame) (front : list value) :
  values df = front ++ [VNull] → last df = Throw "No values in Series.".
Proof.
  intros Hv. unfold last. by rewrite Hv, foldl_keep_last.
Qed.

(** C8: on the dataframe of the two rows [{A: 1}] and [null], [any()] is
    true and [first()] returns the first row, but [last()] throws the
    error it throws for an empty dataframe instead of returning the final
    row. *)
Theorem last_throws_on_final_null_row :
  any two_rows_final_null None = true
  ∧ count two_rows_final_null = 2%nat
  ∧ first two_rows_final_null = Ok (VObj 0 [("A", VNum 1)])
  ∧ last two_rows_final_null = Throw "No values in Series.".
Proof. repeat split. Qed.

(** ** [toArray] against [toPairs] *)






Lemma MultiIterable_snd {V} (ix : index_seq) (vals : list V) :
  (MultiIterable ix vals).*2 `sublist_of` vals.
Proof.
  unfold MultiIterable. generalize (index_take ix (length vals)) as ks.
  induction vals as [|v vals IH]; intros [|k ks]; simpl.
  - constructor.
  - constructor.
  - apply sublist_nil_l.
  - apply sublist_skip, IH.
Qed.

(** Both ways of building a dataframe establish the invariant, unless a
    configuration supplies [values] and [pairs] that disagree. *)
Lemma initFromConfig_pairs_follow_values (config : Config.t) :
  Config.values config = None ∨ Config.pairs config = None →
  pairs_follow_values (initFromConfig config).
Proof.
  unfold pairs_follow_values, initFromConfig.
  destruct config as [vs ix ps cn bk ca]; simpl.
  intros [-> | ->]; [destruct ps as [ps|] | destruct vs as [vs|]]; simpl;
    try apply MultiIterable_snd.
  done.
Qed.

Lemma initFromArray_pairs_follow_values (arr : list value) (df : DataFrame) :
  initFromArray arr = Ok df → pairs_follow_values df.
Proof.
  unfold initFromArray. destruct arr as [|v arr]; simpl.
  - intros [= <-]. constructor.
  - destruct (object_keys v); simpl; [|done].
    intros [= <-]. apply (MultiIterable_snd CountIterable (v :: arr)).
Qed.



(** ** [initColumnNames] *)

Lemma occurrences_app (lwr : string) (l1 l2 : list string) :
  occurrences lwr (l1 ++ l2) = occurrences lwr l1 + occurrences lwr l2.
Proof. induction l1 as [|n l1 IH]; simpl; [done|]. rewrite IH. lia. Qed.

Lemma countColumnNames_from (m : gmap string nat) (names : list string) (k : string) :
  default 0 (foldl (λ (columnNamesMap : gmap string nat) columnName,
                      let columnNameLwr := toLowerCase columnName in
                      match columnNamesMap !! columnNameLwr with
                      | None => <[columnNameLwr := 1]> columnNamesMap
                      | Some n => <[columnNameLwr := n + 1]> columnNamesMap
                      end) m names !! k)
  = default 0 (m !! k) + occurrences k names.
Proof.
  revert m. induction names as [|n names IH]; intros m; simpl; [lia|].
  rewrite IH. case_bool_decide as Hk.
  - subst k. destruct (m !! toLowerCase n) as [c|] eqn:Hm;
      rewrite lookup_insert_eq; simpl; lia.
  - destruct (m !! toLowerCase n) as [c|] eqn:Hm;
      rewrite lookup_insert_ne by done; lia.
Qed.

Lemma countColumnNames_lookup (names : list string) (k : string) :
  default 0 (countColumnNames names !! k) = occurrences k names.
Proof. unfold countColumnNames. by rewrite countColumnNames_from. Qed.

Lemma numberColumnName_loop (names seen rest out : list string)
    (columnNoMap : gmap string nat) :
  names = seen ++ rest →
  numbering_of names seen columnNoMap →
  (foldl (numberColumnName (countColumnNames names)) (out, columnNoMap) rest).1
  = out ++ imap (λ j, renamed names (length seen + j)) rest.
Proof.
  revert seen out columnNoMap.
  induction rest as [|n rest IH]; intros seen out noMap Hnames Hinv.
  { simpl. by rewrite app_nil_r. }
  assert (Hnext : names = (seen ++ [n]) ++ rest) by (by rewrite <- app_assoc).
  assert (Htake : take (length seen + 0) names = seen).
  { rewrite Hnames, Nat.add_0_r. by rewrite take_app_length. }
  assert (Hshift : imap (λ j, renamed names (length (seen ++ [n]) + j)) rest
                   = imap ((λ j, renamed names (length seen + j)) ∘ S) rest).
  { apply imap_ext. intros j m _. simpl. rewrite length_app. simpl.
    f_equal. lia. }
  cbn [foldl]. unfold numberColumnName at 2.
  rewrite countColumnNames_lookup.
  case_bool_decide as Hdup.
  - rewrite (IH (seen ++ [n])); [|done|].
    + rewrite <- app_assoc, Hshift. simpl. do 2 f_equal.
      unfold renamed. rewrite bool_decide_true by done.
      by rewrite Htake, (Hinv _ Hdup).
    + intros k Hk. rewrite occurrences_app. simpl.
      case_bool_decide as Hkn.
      * subst k. rewrite lookup_insert_eq. simpl. rewrite (Hinv _ Hk). lia.
      * rewrite lookup_insert_ne by done. rewrite (Hinv _ Hk). lia.
  - rewrite (IH (seen ++ [n])); [|done|].
    + rewrite <- app_assoc, Hshift. simpl. do 2 f_equal.
      unfold renamed. by rewrite bool_decide_false.
    + intros k Hk. rewrite occurrences_app. simpl.
      case_bool_decide as Hkn; [by subst k|].
      rewrite (Hinv _ Hk). lia.
Qed.

Lemma initColumnNames_renamed (names : list string) :
  initColumnNames names = imap (renamed names) names.
Proof.
  unfold initColumnNames.
  by rewrite (numberColumnName_loop names [] names [] ∅).
Qed.


(** ** When the renamed columns are unique *)



Lemma is_digit_not_dot (c : Ascii.ascii) : is_digit c = true → c ≠ "."%char.
Proof. intros Hd ->. vm_compute in Hd. congruence. Qed.


















(** The suffixed names may collide with a name that was already there. *)
Lemma initColumnNames_may_repeat :
  initColumnNames ["a"; "a"; "a.1"] = ["a.1"; "a.2"; "a.1"].
Proof. by vm_compute. Qed.

(** ** [hasSeries], [expectSeries] and [getSeries] *)

Lemma hasSeries_loop_true (names : list string) (lwr : string) :
  hasSeries_loop names lwr = true ↔ ∃ n, n ∈ names ∧ toLowerCase n = lwr.
Proof.
  induction names as [|n names IH]; simpl.
  - split; [done|]. intros (n & Hin & _). by apply elem_of_nil in Hin.
  - case_bool_decide as Hn.
    + split; [|done]. intros _. exists n. split; [left|done].
    + rewrite IH. split.
      * intros (m & Hin & Hm). exists m. split; [by right|done].
      * intros (m & Hin & Hm). apply elem_of_cons in Hin as [->|Hin]; [done|].
        by exists m.
Qed.






(** ** [where], [intersection] and [except] *)

Lemma where_values (df : DataFrame) (p : value → bool) :
  values (where_ df p) = List.filter p (values df).
Proof. done. Qed.

Lemma where_pairs (df : DataFrame) (p : value → bool) :
  pairs (where_ df p) = List.filter (λ pair : value * value, p pair.2) (pairs df).
Proof. done. Qed.

Lemma any_where (df : DataFrame) (p : value → bool) :
  any (where_ df p) None = existsb p (values df).
Proof.
  unfold any. rewrite where_values.
  induction (values df) as [|v l IH]; simpl; [done|].
  destruct (p v); simpl; [done|apply IH].
Qed.

Lemma none_where (df : DataFrame) (p : value → bool) :
  none (where_ df p) None = negb (existsb p (values df)).
Proof.
  unfold none. rewrite where_values.
  induction (values df) as [|v l IH]; simpl; [done|].
  destruct (p v); simpl; [done|apply IH].
Qed.

(** The operators keep the values of the pairs among the values. *)
Lemma filter_sublist {A} (p : A → bool) (l1 l2 : list A) :
  l1 `sublist_of` l2 → List.filter p l1 `sublist_of` List.filter p l2.
Proof.
  induction 1 as [|x l1 l2 _ IH|x l1 l2 _ IH]; simpl; [constructor| |].
  - destruct (p x); [by apply sublist_skip|done].
  - destruct (p x); [by apply sublist_cons|done].
Qed.

Lemma filter_snd_fmap {A B} (p : B → bool) (l : list (A * B)) :
  (List.filter (λ x : A * B, p x.2) l).*2 = List.filter p l.*2.
Proof.
  induction l as [|[a b] l IH]; simpl; [done|].
  destruct (p b); simpl; [f_equal|]; exact IH.
Qed.

Lemma where_pairs_follow_values (df : DataFrame) (p : value → bool) :
  pairs_follow_values df → pairs_follow_values (where_ df p).
Proof.
  unfold pairs_follow_values. rewrite where_values, where_pairs, filter_snd_fmap.
  apply filter_sublist.
Qed.

Lemma select_pairs_follow_values (df : DataFrame) (selector : value → nat → value) :
  pairs_follow_values (select df selector).
Proof. apply initFromConfig_pairs_follow_values. by right. Qed.

Lemma resetIndex_pairs_follow_values (df : DataFrame) :
  pairs_follow_values (resetIndex df).
Proof. apply initFromConfig_pairs_follow_values. by right. Qed.

Lemma concat_pairs_follow_values (dataframes : list DataFrame) :
  Forall pairs_follow_values dataframes →
  pairs_follow_values (concat_static dataframes).
Proof.
  unfold pairs_follow_values.
  change (pairs (concat_static dataframes)) with (concat (pairs <$> dataframes)).
  change (values (concat_static dataframes)) with (concat (values <$> dataframes)).
  induction 1 as [|df dfs Hdf _ IH]; simpl; [constructor|].
  rewrite fmap_app. by apply sublist_app.
Qed.

(** A row has a match in [inner] when some inner key is [===] its key. *)
Lemma intersection_values (outer inner : DataFrame) (ko ki : value → value) :
  values (intersection outer inner (Some ko) (Some ki))
  = List.filter (λ o, existsb (λ i, strict_eq (ko o) (ki i)) (values inner))
                (values outer).
Proof.
  unfold intersection. rewrite where_values.
  apply filter_ext. intros o. simpl. apply any_where.
Qed.

Lemma except_values (outer inner : DataFrame) (ko ki : value → value) :
  values (except outer inner (Some ko) (Some ki))
  = List.filter (λ o, negb (existsb (λ i, strict_eq (ko o) (ki i)) (values inner)))
                (values outer).
Proof.
  unfold except. rewrite where_values.
  apply filter_ext. intros o. simpl. apply none_where.
Qed.

Lemma except_pairs (outer inner : DataFrame) (ko ki : value → value) :
  pairs (except outer inner (Some ko) (Some ki))
  = List.filter (λ pair : value * value,
                   negb (existsb (λ i, strict_eq (ko pair.2) (ki i)) (values inner)))
                (pairs outer).
Proof.
  unfold except. rewrite where_pairs.
  apply filter_ext. intros o. simpl. apply none_where.
Qed.

Lemma intersection_pairs (outer inner : DataFrame) (ko ki : value → value) :
  pairs (intersection outer inner (Some ko) (Some ki))
  = List.filter (λ pair : value * value,
                   existsb (λ i, strict_eq (ko pair.2) (ki i)) (values inner))
                (pairs outer).
Proof.
  unfold intersection. rewrite where_pairs.
  apply filter_ext. intros o. simpl. apply any_where.
Qed.

Lemma filter_filter_negb {A} (p : A → bool) (l : list A) :
  List.filter p (List.filter (λ x, negb (p x)) l) = [].
Proof.
  induction l as [|x l IH]; simpl; [done|].
  destruct (p x) eqn:Hp; simpl; [done|]. by rewrite Hp.
Qed.

Lemma default_selectors_intersection (outer inner : DataFrame) :
  intersection outer inner None None
  = intersection outer inner (Some (λ v, v)) (Some (λ v, v)).
Proof. done. Qed.

Lemma default_selectors_except (outer inner : DataFrame) :
  except outer inner None None = except outer inner (Some (λ v, v)) (Some (λ v, v)).
Proof. done. Qed.

(** With the same key selectors on both operators the composition is
    empty, whatever the selectors are. *)
Lemma except_intersection_empty_with (A B : DataFrame) (ko ki : value → value) :
  values (intersection (except A B (Some ko) (Some ki)) B (Some ko) (Some ki)) = []
  ∧ pairs (intersection (except A B (Some ko) (Some ki)) B (Some ko) (Some ki)) = [].
Proof.
  rewrite intersection_values, intersection_pairs, except_values, except_pairs.
  split.
  - apply (filter_filter_negb
             (λ o, existsb (λ i, strict_eq (ko o) (ki i)) (values B))).
  - apply (filter_filter_negb
             (λ pair : value * value,
                existsb (λ i, strict_eq (ko pair.2) (ki i)) (values B))).
Qed.

(** C7: for all dataframes A and B, [A.except(B).intersection(B)] with the
    default key selectors has no rows: no values, no pairs, and [toArray],
    [toPairs], [count] and [any] report it empty. *)
Theorem except_then_intersection_is_empty (A B : DataFrame) :
  values (intersection (except A B None None) B None None) = []
  ∧ pairs (intersection (except A B None None) B None None) = []
  ∧ toArray (intersection (except A B None None) B None None) = []
  ∧ toPairs (intersection (except A B None None) B None None) = []
  ∧ count (intersection (except A B None None) B None None) = 0
  ∧ any (intersection (except A B None None) B None None) None = false.
Proof.
  rewrite default_selectors_except, default_selectors_intersection.
  destruct (except_intersection_empty_with A B (λ v, v) (λ v, v)) as [Hv Hp].
  unfold toArray, toPairs, count, any. rewrite Hv, Hp. done.
Qed.

(** ** [makeDistinct] *)

Lemma first_seen_elem_of (seen : gset string) (l : list string) (x : string) :
  x ∈ first_seen seen l ↔ x ∈ l ∧ x ∉ seen.
Proof.
  revert seen. induction l as [|n l IH]; intros seen; simpl.
  - rewrite elem_of_nil. intuition congruence.
  - case_bool_decide as Hn.
    + rewrite IH, elem_of_cons. intuition congruence.
    + rewrite !elem_of_cons, IH, not_elem_of_union, not_elem_of_singleton.
      destruct (decide (x = n)); intuition congruence.
Qed.


Lemma first_seen_snoc (seen : gset string) (l : list string) (k : string) :
  first_seen seen (l ++ [k])
  = first_seen seen l ++ (if bool_decide (k ∈ seen ∨ k ∈ l) then [] else [k]).
Proof.
  revert seen. induction l as [|n l IH]; intros seen; simpl.
  - case_bool_decide as Hk.
    + rewrite bool_decide_true; [done|by left].
    + rewrite bool_decide_false; [done|]. rewrite elem_of_nil. intuition congruence.
  - case_bool_decide as Hn.
    + rewrite IH. f_equal.
      rewrite (bool_decide_ext (k ∈ seen ∨ k ∈ l) (k ∈ seen ∨ k ∈ n :: l));
        [done|].
      rewrite elem_of_cons. intuition congruence.
    + simpl. rewrite IH. do 2 f_equal.
      rewrite (bool_decide_ext (k ∈ {[n]} ∪ seen ∨ k ∈ l) (k ∈ seen ∨ k ∈ n :: l));
        [done|].
      rewrite elem_of_cons, elem_of_union, elem_of_singleton. intuition congruence.
Qed.

Lemma makeDistinct_elem_of (l : list string) (x : string) :
  x ∈ makeDistinct l ↔ x ∈ l.
Proof.
  unfold makeDistinct. rewrite first_seen_elem_of.
  pose proof (not_elem_of_empty (C := gset string) x). intuition congruence.
Qed.


Lemma makeDistinct_snoc (l : list string) (k : string) :
  makeDistinct (l ++ [k])
  = makeDistinct l ++ (if bool_decide (k ∈ l) then [] else [k]).
Proof.
  unfold makeDistinct. rewrite first_seen_snoc. f_equal.
  rewrite (bool_decide_ext (k ∈ (∅ : gset string) ∨ k ∈ l) (k ∈ l)); [done|].
  pose proof (not_elem_of_empty (C := gset string) k). intuition congruence.
Qed.

(** ** [groupBy] *)









Lemma fromPairs_pairs (group : list (value * value)) :
  pairs (fromPairs group) = group ∧ values (fromPairs group) = group.*2
  ∧ index (fromPairs group) = IndexValues (group.*1).
Proof. done. Qed.


(** Keys 2, 1, "1", 2: two groups, the one of 2 first, and the rows keyed
    1 and "1" together. *)
Lemma groupBy_number_and_string_collide :
  pairs <$> Series.values (groupBy keys_2_1_s1_2 (λ row _, row))
  = [ [(VNum 0, VNum 2); (VNum 3, VNum 2)];
      [(VNum 1, VNum 1); (VNum 2, VStr "1")] ].
Proof. by vm_compute. Qed.

(** ** [join] *)

Lemma SelectIterable_no_index {A B} (l : list A) (f : A → B) :
  SelectIterable l (λ x _, f x) = f <$> l.
Proof.
  unfold SelectIterable. induction l as [|x l IH]; simpl; [done|].
  f_equal. apply IH.
Qed.







(** ** Outer joins *)

Lemma resetIndex_content (df : DataFrame) :
  values (resetIndex df) = values df
  ∧ index (resetIndex df) = CountIterable
  ∧ pairs (resetIndex df) = zip (count_from 0 (length (values df))) (values df).
Proof. done. Qed.

Lemma fst_zip_count {V} (vals : list V) :
  (zip (count_from 0 (length vals)) vals).*1 = count_from 0 (length vals)
  ∧ (zip (count_from 0 (length vals)) vals).*2 = vals.
Proof.
  split.
  - apply fst_zip. unfold count_from. by rewrite length_fmap, length_seq.
  - apply snd_zip. unfold count_from. by rewrite length_fmap, length_seq.
Qed.




(** Two customers on the outer side, two orders on the inner side. *)
Lemma joinOuter_example :
  ∃ full left right,
    joinOuter outer_ids_1_2 inner_ids_2_3 row_id row_id merge_ids = Ok full
    ∧ joinOuterLeft outer_ids_1_2 inner_ids_2_3 row_id row_id merge_ids = Ok left
    ∧ joinOuterRight outer_ids_1_2 inner_ids_2_3 row_id row_id merge_ids = Ok right
    ∧ toPairs full
      = [ (VNum 0, VObj 10 [("o", VNum 1); ("i", VNull)]);
          (VNum 1, VObj 10 [("o", VNum 2); ("i", VNum 2)]);
          (VNum 2, VObj 10 [("o", VNull); ("i", VNum 3)]) ]
    ∧ toArray left
      = [ VObj 10 [("o", VNum 1); ("i", VNull)];
          VObj 10 [("o", VNum 2); ("i", VNum 2)] ]
    ∧ toArray right
      = [ VObj 10 [("o", VNum 2); ("i", VNum 2)];
          VObj 10 [("o", VNull); ("i", VNum 3)] ].
Proof. do 3 eexists. split_and!; by vm_compute. Qed.

(** ** The stable sort *)

Lemma insert_sorted_perm {A} (le : A → A → bool) (x : A) (l : list A) :
  Sort.insert_sorted le x l ≡ₚ x :: l.
Proof.
  induction l as [|y l IH]; simpl; [done|].
  destruct (le x y); [done|]. rewrite IH. apply Permutation_swap.
Qed.

Lemma stable_sort_perm {A} (le : A → A → bool) (l : list A) :
  Sort.stable_sort le l ≡ₚ l.
Proof.
  induction l as [|x l IH]; simpl; [done|].
  by rewrite insert_sorted_perm, IH.
Qed.

(** Sorting neither drops nor adds rows. *)
Lemma OrderedIterable_perm {A} (iterable : list A) (specs : list (Sort.ISortSpec A)) :
  Sort.OrderedIterable iterable specs ≡ₚ iterable.
Proof.
  unfold Sort.OrderedIterable. rewrite stable_sort_perm.
  rewrite fmap_imap. clear.
  assert (H : ∀ (l : list A) (h : nat → nat),
            imap (λ n, fst ∘ (λ x, (x, h n))) l = l).
  { induction l as [|x l IH]; intros h; simpl; [done|].
    f_equal. apply (IH (h ∘ S)). }
  by rewrite (H iterable (λ n, n)).
Qed.

(** ** [orderBy] and [thenBy] *)

(** The loop of the constructor always ends with [parent] equal to [null]. *)
Lemma parents_loop_parent (p : OrderedDataFrame)
    (vs : list (Sort.ISortSpec value)) (ps : list (Sort.ISortSpec (value * value)))
    (level : nat) :
  (parents_loop p vs ps level).2 = None.
Proof.
  revert p vs ps level. fix IH 1.
  intros [[next|] sel dir ov op c] vs ps level; simpl.
  - apply IH.
  - done.
Qed.

(** So no ordered dataframe ever records its parent. *)
Lemma OrderedDataFrame_new_parent (vals : list value) (prs : list (value * value))
    (selector : value → nat → value) (direction : Sort.Direction)
    (parent : option OrderedDataFrame) :
  Ordered.parent (OrderedDataFrame_new vals prs selector direction parent) = None.
Proof.
  unfold OrderedDataFrame_new, constructor_specs.
  destruct parent as [p|]; [|done].
  pose proof (parents_loop_parent p [] [] 0) as Hp.
  destruct (parents_loop p [] [] 0) as [[[vs ps] level] after]. simpl in Hp.
  by subst after.
Qed.

(** A chain of two levels is flattened as intended. *)
Lemma orderBy_thenBy_specs (df : DataFrame) (a b : value → nat → value) :
  (constructor_specs b Sort.Ascending (Some (orderBy df a))).1.1
  = [makeSortSpec 0 a Sort.Ascending; makeSortSpec 1 b Sort.Ascending].
Proof. done. Qed.

(** C1 fails on a chain of three: the constructor leaves [this.parent]
    at [null], so [thenBy(c)] on [orderBy(a).thenBy(b)] sees one parent
    only.  The specs handed to the sort are [b] at level 0 and [c] at level
    1, the content is that of [orderBy(b).thenBy(c)], and two rows that
    differ in [a] alone stay in their input order. *)
Theorem thenBy_thenBy_forgets_orderBy (df : DataFrame) (a b c : value → nat → value) :
  Ordered.parent (thenBy (orderBy df a) b) = None
  ∧ (constructor_specs c Sort.Ascending (Some (thenBy (orderBy df a) b))).1.1
    = [makeSortSpec 0 b Sort.Ascending; makeSortSpec 1 c Sort.Ascending]
  ∧ Ordered.content (thenBy (thenBy (orderBy df a) b) c)
    = Ordered.content (thenBy (orderBy df b) c)
  ∧ toArray (Ordered.content
               (thenBy (thenBy (orderBy rows_a2_a1 (column "a")) (column "b"))
                       (column "c")))
    = [VObj 1 [("a", VNum 2); ("b", VNum 1); ("c", VNum 1)];
       VObj 2 [("a", VNum 1); ("b", VNum 1); ("c", VNum 1)]]
  ∧ toArray (Ordered.content (thenBy (orderBy rows_a2_a1 (column "a")) (column "b")))
    = [VObj 2 [("a", VNum 1); ("b", VNum 1); ("c", VNum 1)];
       VObj 1 [("a", VNum 2); ("b", VNum 1); ("c", VNum 1)]].
Proof. split_and!; try done; by vm_compute. Qed.

(** ** [sequentialDistinct] *)

Lemma variable_windows_concat (comparer : value → value → bool)
    (prs current : list (value * value)) (prev : value * value) :
  concat (variable_windows comparer prs current prev) = current ++ prs.
Proof.
  revert current prev. induction prs as [|p prs IH]; intros current prev; simpl.
  - done.
  - destruct (comparer prev.2 p.2); simpl; rewrite IH; [|done].
    by rewrite <- app_assoc.
Qed.

Lemma variable_windows_nonempty (comparer : value → value → bool)
    (prs current : list (value * value)) (prev : value * value) :
  current ≠ [] →
  Forall (λ w, w ≠ []) (variable_windows comparer prs current prev).
Proof.
  revert current prev. induction prs as [|p prs IH]; intros current prev Hc; simpl.
  - by constructor.
  - destruct (comparer prev.2 p.2).
    + apply IH. by destruct current.
    + constructor; [done|]. by apply IH.
Qed.

Lemma windows_of_concat (df : DataFrame) (comparer : value → value → bool) :
  concat (windows_of df comparer) = pairs df
  ∧ Forall (λ w, w ≠ []) (windows_of df comparer).
Proof.
  unfold windows_of. destruct (pairs df) as [|p rest]; [done|]. split.
  - by rewrite variable_windows_concat.
  - by apply variable_windows_nonempty.
Qed.

Lemma mapM_result_imap {A B} (f : A → nat → result B) (g : A → B) (l : list A)
    (h : nat → nat) :
  (∀ x i, x ∈ l → f x i = Ok (g x)) →
  mapM_result (λ xi : A * nat, f xi.1 xi.2) (imap (λ i x, (x, h i)) l)
  = Ok (g <$> l).
Proof.
  revert h. induction l as [|x l IH]; intros h Hf; simpl; [done|].
  rewrite (Hf x) by left. simpl.
  change (imap ((λ i x, (x, h i)) ∘ S) l) with (imap (λ i x, (x, (h ∘ S) i)) l).
  rewrite IH; [done|]. intros y i Hy. apply Hf. by right.
Qed.

Lemma zip_fst_self {A B} (f : A → B) (l : list A) :
  zip (take (length l) (f <$> l)) l = (λ x, (f x, x)) <$> l.
Proof. induction l as [|x l IH]; simpl; [done|]. f_equal. exact IH. Qed.

(** Re-indexing a series of pairs by their first component and inflating
    it by their second gives back the pairs. *)
Lemma inflate_withIndex (vals : list (value * value)) (ix : index_seq) :
  pairs (Series_inflate
           (Series_withIndex (Series.initFromConfig (Some vals) (Some ix) None)
                             (λ pair, pair.1))
           (λ pair _, pair.2)) = vals
  ∧ values (Series_inflate
              (Series_withIndex (Series.initFromConfig (Some vals) (Some ix) None)
                                (λ pair, pair.1))
              (λ pair _, pair.2)) = vals.*2.
Proof.
  split.
  - change (SelectIterable
              (zip (take (length vals) ((λ pair : value * value, pair.1) <$> vals)) vals)
              (λ (pair : value * (value * value)) (_ : nat), (pair.1, pair.2.2))
            = vals).
    rewrite zip_fst_self, SelectIterable_no_index, <- list_fmap_compose.
    rewrite <- (list_fmap_id vals) at 2. apply list_fmap_ext. by intros _ [a b] _.
  - change (SelectIterable vals (λ (pair : value * value) (_ : nat), pair.2) = vals.*2).
    apply SelectIterable_no_index.
Qed.

(** Whatever the dataframe, the row kept for a run is its first pair. *)
Lemma sequentialDistinct_heads (df : DataFrame) (selector : option (value → value)) :
  ∃ df',
    sequentialDistinct df selector = Ok df'
    ∧ Some <$> pairs df'
      = head <$> windows_of df (λ a b, strict_eq (default (λ v, v) selector a)
                                                 (default (λ v, v) selector b))
    ∧ values df' = (pairs df').*2.
Proof.
  unfold sequentialDistinct, variableWindow, DataFrameVariableWindowIterable.
  set (comparer := λ a b, strict_eq (default (λ v, v) selector a)
                                    (default (λ v, v) selector b)).
  destruct (windows_of_concat df comparer) as [_ Hne].
  unfold windows_of in *. destruct (pairs df) as [|p rest].
  { eexists. split; [reflexivity|]. done. }
  set (ws := variable_windows comparer rest [p] p) in *.
  unfold Series_select.
  cbn [Series.values Series.index Series.initFromConfig].
  pose (pick := λ w : list (value * value),
                  (default VUndefined (head w.*1), default VUndefined (head w.*2))).
  rewrite (mapM_result_imap
             (λ (w : DataFrame) (_ : nat),
                i ← Index_first (getIndex w); v ← first w; Ok (i, v))
             (λ w : DataFrame, pick (pairs w)) _ (λ i, i)).
  2:{ intros w i Hw. apply list_elem_of_fmap in Hw as (prs & -> & Hprs).
      rewrite Forall_forall in Hne. specialize (Hne prs Hprs).
      destruct prs as [|[ix v] prs]; [done|reflexivity]. }
  cbn [mbind result_bind]. eexists. split; [reflexivity|].
  rewrite <- list_fmap_compose.
  destruct (inflate_withIndex
              (((λ w : DataFrame, pick (pairs w))
                  ∘ (λ window,
                       initFromConfig
                         {| Config.columnNames := Some (columnNames df);
                            Config.pairs := Some window;
                            Config.values := None; Config.index := None;
                            Config.baked := None;
                            Config.considerAllRows := None |})) <$> ws)
              CountIterable) as [-> ->].
  split; [|done]. rewrite <- list_fmap_compose.
  apply Forall_fmap_ext_1. eapply Forall_impl; [exact Hne|].
  intros [|[ix v] w] Hw; done.
Qed.

(** C2 fails on the code: for every dataframe the pair kept for a run is
    the first of the run.  Of the run made of the rows at index 0 and 1,
    which agree on [A], [sequentialDistinct] keeps the row at index 0, where
    the claim (and the comment above the method) keeps the row at index 1. *)
Theorem sequentialDistinct_keeps_first_of_run
    (df : DataFrame) (selector : option (value → value)) :
  (∃ df', sequentialDistinct df selector = Ok df'
          ∧ Some <$> pairs df'
            = head <$> windows_of df
                         (λ a b, strict_eq (default (λ v, v) selector a)
                                           (default (λ v, v) selector b)))
  ∧ (∃ df', sequentialDistinct run_of_two_then_one (Some (λ row, column "A" row 0))
            = Ok df'
            ∧ toPairs df'
              = [(VNum 0, VObj 1 [("A", VNum 1); ("B", VNum 10)]);
                 (VNum 2, VObj 3 [("A", VNum 2); ("B", VNum 30)])]
            ∧ (VNum 1, VObj 2 [("A", VNum 1); ("B", VNum 20)]) ∉ toPairs df').
Proof.
  split.
  - destruct (sequentialDistinct_heads df selector) as (df' & H1 & H2 & _).
    by exists df'.
  - eexists. split; [by vm_compute|]. split; [by vm_compute|].
    intros Hin. apply list_elem_of_In in Hin. vm_compute in Hin.
    destruct Hin as [Hin | [Hin | []]]; discriminate Hin.
Qed.

(** ** [withSeries] *)

Lemma toMap_from {I V} (items : list I) (ks : I → value) (vs : I → V)
    (m : gmap string V) (k : string) :
  foldl (λ output item, <[toKey (ks item) := vs item]> output) m items !! k
  = match list.last (List.filter (λ item, bool_decide (toKey (ks item) = k)) items) with
    | Some item => Some (vs item)
    | None => m !! k
    end.
Proof.
  revert m. induction items as [|item items IH]; intros m; simpl; [done|].
  rewrite IH. case_bool_decide as Hk.
  - destruct (List.filter _ items) as [|x l] eqn:Hf; simpl.
    + subst k. by rewrite lookup_insert_eq.
    + destruct (list.last (x :: l)) eqn:Hl; [done|]. by apply last_None in Hl.
  - destruct (list.last (List.filter _ items)); [done|].
    by rewrite lookup_insert_ne.
Qed.

Lemma toMap_lookup (seriesPairs : list (value * value)) (ix : value) :
  default VUndefined
    (toMap seriesPairs (λ pair : value * value, pair.1)
           (λ pair : value * value, pair.2) !! toKey ix)
  = series_value_at seriesPairs ix.
Proof.
  unfold toMap, series_value_at. rewrite toMap_from.
  by destruct (list.last _).
Qed.

Lemma assoc_set_prop_eq (props : list (string * value)) (name : string) (v : value) :
  assoc name (set_prop props name v) = Some v.
Proof.
  induction props as [|[k w] props IH]; simpl.
  - by rewrite bool_decide_true.
  - case_bool_decide as Hk; simpl; [by rewrite bool_decide_true|].
    by rewrite bool_decide_false.
Qed.

Lemma assoc_set_prop_ne (props : list (string * value)) (name other : string)
    (v : value) :
  other ≠ name → assoc other (set_prop props name v) = assoc other props.
Proof.
  intros Hne. induction props as [|[k w] props IH]; simpl.
  - by rewrite bool_decide_false.
  - case_bool_decide as Hk; simpl.
    + subst k. by rewrite !bool_decide_false.
    + by rewrite IH.
Qed.

Lemma none_nonempty (df : DataFrame) : values df ≠ [] → none df None = false.
Proof. unfold none. by destruct (values df). Qed.

(** The content of the new dataframe when the dataframe has rows. *)
Lemma withSeries_pairs (alloc : nat → nat) (df : DataFrame) (columnName : string)
    (series : ISeries + (DataFrame → ISeries)) :
  values df ≠ [] →
  pairs (withSeries alloc df columnName series)
  = imap (λ i (pair : value * value),
            (pair.1, VObj (alloc i)
                       (set_prop (own_props pair.2) columnName
                          (series_value_at
                             (ISeries_toPairs (importSeries_of df series)) pair.1))))
         (pairs df)
  ∧ values (withSeries alloc df columnName series)
    = (pairs (withSeries alloc df columnName series)).*2
  ∧ index (withSeries alloc df columnName series) = index df
  ∧ getColumnNames (withSeries alloc df columnName series)
    = initColumnNames (makeDistinct (getColumnNames df ++ [columnName])).
Proof.
  intros Hne. unfold withSeries. rewrite (none_nonempty df Hne).
  split_and!; try done.
  cbn [pairs initFromConfig Config.pairs]. unfold SelectIterable.
  apply imap_ext. intros i pair _. simpl. by rewrite toMap_lookup.
Qed.

Lemma occurrences_absent (k : string) (names : list string) :
  k ∉ toLowerCase <$> names → occurrences k names = 0.
Proof.
  induction names as [|n names IH]; simpl; [done|].
  intros Hk. apply not_elem_of_cons in Hk as [Hne Hk].
  rewrite bool_decide_false by done. by rewrite IH.
Qed.

Lemma occurrences_NoDup (k : string) (names : list string) :
  NoDup (toLowerCase <$> names) → occurrences k names ≤ 1.
Proof.
  induction names as [|n names IH]; simpl; [lia|].
  intros Hnd. apply NoDup_cons in Hnd as [Hn Hnd].
  case_bool_decide as Hk; [|by apply IH].
  subst k. rewrite occurrences_absent by done. lia.
Qed.

(** Names that are already distinct ignoring case are left alone. *)
Lemma initColumnNames_distinct (names : list string) :
  NoDup (toLowerCase <$> names) → initColumnNames names = names.
Proof.
  intros Hnd. rewrite initColumnNames_renamed.
  apply list_eq. intros i. rewrite list_lookup_imap.
  destruct (names !! i) as [n|]; simpl; [|done].
  unfold renamed. rewrite bool_decide_false; [done|].
  pose proof (occurrences_NoDup (toLowerCase n) names Hnd). lia.
Qed.









(** On a dataframe without rows the series is inflated instead, one row
    [{columnName: value}] per value, whatever columns the dataframe had. *)
Lemma withSeries_empty (alloc : nat → nat) (df : DataFrame) (columnName : string)
    (series : ISeries + (DataFrame → ISeries)) :
  values df = [] →
  withSeries alloc df columnName series
  = ISeries_inflate (importSeries_of df series)
      (λ value i, VObj (alloc i) [(columnName, value)]).
Proof. intros Hv. unfold withSeries, none. by rewrite Hv. Qed.

(** * Further properties *)

(** ** [all], [any] and [none] *)

Lemma all_loop_spec (p : value → bool) (vals : list value) (n : nat) :
  all_loop p vals n = forallb p vals && bool_decide (0 < n + length vals).
Proof.
  revert n. induction vals as [|v vals IH]; intros n; simpl.
  - rewrite Nat.add_0_r. done.
  - destruct (p v); simpl; [|done]. rewrite IH.
    by replace (S n + length vals) with (n + S (length vals)) by lia.
Qed.

(** X1: [all] holds when there is at least one row and every row satisfies
    the predicate: on a dataframe without rows it is false, and otherwise
    it agrees with [none] of the negated predicate. *)
Theorem all_needs_a_row (df : DataFrame) (p : value → bool) :
  (all df p = true ↔ values df ≠ [] ∧ ∀ v, v ∈ values df → p v = true)
  ∧ all df p = any df None && none df (Some (λ v, negb (p v)))
  ∧ (values df = [] → all df p = false ∧ none df (Some p) = true
                      ∧ any df (Some p) = false)
  ∧ none df (Some p) = negb (any df (Some p)).
Proof.
  unfold all, any, none. rewrite all_loop_spec. simpl.
  split_and!.
  - rewrite andb_true_iff, forallb_forall, bool_decide_eq_true.
    setoid_rewrite <- list_elem_of_In.
    destruct (values df) as [|v l]; simpl.
    + split; intros [H1 H2]; [lia|done].
    + split; intros [H1 H2]; (split; [done || lia|done || lia]).
  - assert (Hneg : negb (existsb (λ v, negb (p v)) (values df))
                   = forallb p (values df)).
    { induction (values df) as [|v l IH]; simpl; [done|].
      rewrite negb_orb, negb_involutive, IH. done. }
    rewrite Hneg. destruct (values df); simpl; [done|].
    rewrite andb_comm. done.
  - intros ->. done.
  - done.
Qed.

(** ** [at] *)

Lemma at_loop_no_match (prs : list (value * value)) (ix : value) :
  (∀ p, p ∈ prs → strict_eq p.1 ix = false) → at_loop prs ix = VUndefined.
Proof.
  induction prs as [|[k v] prs IH]; intros Hno; simpl; [done|].
  pose proof (Hno (k, v) ltac:(left)) as Hk. simpl in Hk. rewrite Hk.
  apply IH. intros p Hp. apply Hno. by right.
Qed.

Lemma at_loop_first_match (l1 l2 : list (value * value)) (k v ix : value) :
  (∀ p, p ∈ l1 → strict_eq p.1 ix = false) → strict_eq k ix = true →
  at_loop (l1 ++ (k, v) :: l2) ix = v.
Proof.
  induction l1 as [|[k' v'] l1 IH]; intros Hno Hk; simpl.
  - by rewrite Hk.
  - pose proof (Hno (k', v') ltac:(left)) as Hk'. simpl in Hk'. rewrite Hk'.
    apply IH; [|done]. intros p Hp. apply Hno. by right.
Qed.

(** X2: [at(index)] returns the row of the first pair whose index is [===] the
    argument, and [undefined] when there is none or the dataframe has no
    rows. *)
Theorem at_first_strictly_equal_index (df : DataFrame) (ix : value) :
  (∀ l1 k v l2,
     values df ≠ [] → pairs df = l1 ++ (k, v) :: l2 →
     (∀ p, p ∈ l1 → strict_eq p.1 ix = false) → strict_eq k ix = true →
     at_ df ix = v)
  ∧ ((∀ p, p ∈ pairs df → strict_eq p.1 ix = false) → at_ df ix = VUndefined)
  ∧ (values df = [] → at_ df ix = VUndefined).
Proof.
  unfold at_, none. split_and!.
  - intros l1 k v l2 Hne -> Hno Hk. destruct (values df); [done|].
    by apply at_loop_first_match.
  - intros Hno. destruct (values df); [done|]. by apply at_loop_no_match.
  - by intros ->.
Qed.

Lemma at_loop_count (vals : list value) (start i : nat) :
  at_loop (zip (count_from start (length vals)) vals) (VNum (Z.of_nat (start + i)))
  = default VUndefined (vals !! i).
Proof.
  revert start i. induction vals as [|v vals IH]; intros start i; [done|].
  cbn [length count_from seq fmap list_fmap zip zip_with at_loop strict_eq].
  destruct i as [|i].
  - rewrite Nat.add_0_r, bool_decide_true by done. done.
  - rewrite bool_decide_false by lia.
    replace (start + S i) with (S start + i) by lia. apply (IH (S start) i).
Qed.

Lemma at_loop_count_other (vals : list value) (start : nat) (ix : value) :
  (∀ i, ix ≠ VNum (Z.of_nat i)) →
  at_loop (zip (count_from start (length vals)) vals) ix = VUndefined.
Proof.
  intros Hix. apply at_loop_no_match. intros [k v] Hin. simpl.
  apply elem_of_zip_l in Hin. unfold count_from in Hin.
  apply list_elem_of_fmap in Hin as (i & -> & _).
  destruct ix; try done. simpl. apply bool_decide_eq_false. intros <-.
  by apply (Hix i).
Qed.

(** X3: On a dataframe built from an array of rows, [at(i)] is the row at
    position [i], and [undefined] past the end or for an index that is not
    a position, the string ["0"] included. *)
Theorem at_position_of_array (arr : list value) (df : DataFrame)
    (Hnew : DataFrame_new (ArrayArg arr) = Ok df) :
  (∀ i, at_ df (VNum (Z.of_nat i)) = default VUndefined (arr !! i))
  ∧ (∀ i, length arr ≤ i → at_ df (VNum (Z.of_nat i)) = VUndefined)
  ∧ (∀ ix, (∀ i, ix ≠ VNum (Z.of_nat i)) → at_ df ix = VUndefined).
Proof.
  simpl in Hnew. unfold initFromArray in Hnew.
  assert (Hdf : values df = arr
                ∧ pairs df = zip (count_from 0 (length arr)) arr).
  { destruct arr as [|v arr]; simpl in Hnew.
    - by injection Hnew as <-.
    - destruct (object_keys v); [|done]. by injection Hnew as <-. }
  destruct Hdf as [Hv Hp].
  assert (Hat : ∀ i, at_ df (VNum (Z.of_nat i)) = default VUndefined (arr !! i)).
  { intros i. unfold at_, none. rewrite Hv, Hp.
    destruct arr as [|v arr]; [done|]. apply (at_loop_count (v :: arr) 0 i). }
  split_and!.
  - done.
  - intros i Hi. rewrite Hat. by rewrite lookup_ge_None_2.
  - intros ix Hix. unfold at_, none. rewrite Hv, Hp.
    destruct arr as [|v arr]; [done|]. by apply at_loop_count_other.
Qed.

Lemma at_position_of_array_witness :
  ∃ df, DataFrame_new (ArrayArg [VNum 10; VNum 20]) = Ok df
        ∧ at_ df (VNum 1) = VNum 20
        ∧ at_ df (VNum 2) = VUndefined
        ∧ at_ df (VStr "1") = VUndefined.
Proof.
  eexists. split; [reflexivity|].
  destruct (at_position_of_array [VNum 10; VNum 20] _ eq_refl) as (Hat & _ & Hother).
  split; [exact (Hat 1)|]. split; [exact (Hat 2)|].
  apply Hother. intros i. discriminate.
Defined.

(** ** [bake] *)

Lemma filter_filter_same {A} (p : A → bool) (l : list A) :
  List.filter p (List.filter p l) = List.filter p l.
Proof.
  induction l as [|x l IH]; simpl; [done|].
  destruct (p x) eqn:Hp; simpl; [|done]. by rewrite Hp, IH.
Qed.

(** X4: Baking sets the baked flag and changes nothing that [toArray] and
    [toPairs] report; baking twice is baking once.  The baked values are
    those of [toArray], so rows that are [undefined] are gone. *)
Theorem bake_keeps_extracted_rows (df : DataFrame) :
  isBaked (bake df) = true
  ∧ bake (bake df) = bake df
  ∧ toArray (bake df) = toArray df
  ∧ toPairs (bake df) = toPairs df
  ∧ (isBaked df = false →
     values (bake df) = toArray df ∧ pairs (bake df) = toPairs df)
  ∧ (isBaked df = true → bake df = df).
Proof.
  unfold bake. destruct (isBaked df) eqn:Hb.
  - rewrite Hb. done.
  - split_and!; try done.
    + rewrite !toArray_filter. apply filter_filter_same.
    + rewrite !toPairs_filter.
      apply (filter_filter_same (λ p : value * value, loose_ne_undefined p.2)).
Qed.

(** [new DataFrame({values: [10, 20, 30], index: [5, 6, 7]})] *)
Lemma at_indexed_example :
  at_ indexed_5_6_7 (VNum 6) = VNum 20 ∧ at_ indexed_5_6_7 (VNum 99) = VUndefined.
Proof. done. Qed.

(** ** Column names through the operators *)







(** An array of rows whose first row has the fields [A] and [a] gives the
    columns [A] and [a]; a filter that keeps every row renames them. *)
Lemma where_renames_columns_of_array :
  ∃ df, DataFrame_new (ArrayArg [VObj 0 [("A", VNum 1); ("a", VNum 2)]]) = Ok df
        ∧ getColumnNames df = ["A"; "a"]
        ∧ getColumnNames (where_ df (λ _, true)) = ["A.1"; "a.2"].
Proof. eexists. split; [done|]. by vm_compute. Qed.

(** ** Filters and splits *)

Lemma filter_split_perm {A} (p : A → bool) (l : list A) :
  List.filter p l ++ List.filter (λ x, negb (p x)) l ≡ₚ l.
Proof.
  induction l as [|x l IH]; simpl; [done|].
  destruct (p x); simpl.
  - by f_equiv.
  - rewrite <- Permutation_middle. by f_equiv.
Qed.

Lemma filter_split_length {A} (p : A → bool) (l : list A) :
  length (List.filter p l) + length (List.filter (λ x, negb (p x)) l) = length l.
Proof.
  induction l as [|x l IH]; simpl; [done|]. destruct (p x); simpl; lia.
Qed.

Lemma filter_sublist_of {A} (p : A → bool) (l : list A) :
  List.filter p l `sublist_of` l.
Proof.
  induction l as [|x l IH]; simpl; [constructor|].
  destruct (p x); by constructor.
Qed.

(** X7: [intersection] and [except] with the same selectors split the outer
    dataframe: each of its rows goes to exactly one of them, in the order
    of the outer dataframe, and the counts add up. *)
Theorem intersection_except_split (outer inner : DataFrame)
    (outerSelector innerSelector : option (value → value)) :
  values (intersection outer inner outerSelector innerSelector)
    ++ values (except outer inner outerSelector innerSelector) ≡ₚ values outer
  ∧ pairs (intersection outer inner outerSelector innerSelector)
    ++ pairs (except outer inner outerSelector innerSelector) ≡ₚ pairs outer
  ∧ values (intersection outer inner outerSelector innerSelector)
    `sublist_of` values outer
  ∧ values (except outer inner outerSelector innerSelector) `sublist_of` values outer
  ∧ count (intersection outer inner outerSelector innerSelector)
    + count (except outer inner outerSelector innerSelector) = count outer.
Proof.
  assert (Hi : intersection outer inner outerSelector innerSelector
               = intersection outer inner (Some (default (λ v, v) outerSelector))
                                          (Some (default (λ v, v) innerSelector)))
    by done.
  assert (He : except outer inner outerSelector innerSelector
               = except outer inner (Some (default (λ v, v) outerSelector))
                                    (Some (default (λ v, v) innerSelector)))
    by done.
  rewrite Hi, He, !count_length.
  rewrite intersection_values, except_values, intersection_pairs, except_pairs.
  split_and!.
  - apply (filter_split_perm
             (λ o, existsb (λ i, strict_eq (default (λ v, v) outerSelector o)
                                           (default (λ v, v) innerSelector i))
                           (values inner))).
  - apply (filter_split_perm
             (λ pair : value * value,
                existsb (λ i, strict_eq (default (λ v, v) outerSelector pair.2)
                                        (default (λ v, v) innerSelector i))
                        (values inner))).
  - apply filter_sublist_of.
  - apply filter_sublist_of.
  - apply (filter_split_length
             (λ o, existsb (λ i, strict_eq (default (λ v, v) outerSelector o)
                                           (default (λ v, v) innerSelector i))
                           (values inner))).
Qed.

Lemma filter_filter_andb {A} (p q : A → bool) (l : list A) :
  List.filter q (List.filter p l) = List.filter (λ x, p x && q x) l.
Proof.
  induction l as [|x l IH]; simpl; [done|].
  destruct (p x) eqn:Hp; simpl; [|done]. destruct (q x); by rewrite IH.
Qed.

(** X8: Two filters in a row keep the rows that pass both predicates, and the
    order of the filters makes no difference to the rows. *)
Theorem where_where_is_conjunction (df : DataFrame) (p q : value → bool) :
  values (where_ (where_ df p) q) = values (where_ df (λ row, p row && q row))
  ∧ pairs (where_ (where_ df p) q) = pairs (where_ df (λ row, p row && q row))
  ∧ values (where_ (where_ df p) q) = values (where_ (where_ df q) p)
  ∧ pairs (where_ (where_ df p) q) = pairs (where_ (where_ df q) p).
Proof.
  rewrite !where_values, !where_pairs, !filter_filter_andb.
  split_and!; try done; apply filter_ext; intros x; apply andb_comm.
Qed.

Lemma TakeWhile_SkipWhile {A} (l : list A) (p : A → bool) :
  TakeWhileIterable l p ++ SkipWhileIterable l p = l.
Proof.
  induction l as [|x l IH]; simpl; [done|].
  destruct (p x); simpl; [by rewrite IH|done].
Qed.

Lemma TakeWhile_forall {A} (l : list A) (p : A → bool) :
  forallb p (TakeWhileIterable l p) = true.
Proof.
  induction l as [|x l IH]; simpl; [done|].
  destruct (p x) eqn:Hp; simpl; [by rewrite Hp|done].
Qed.

Lemma SkipWhile_head {A} (l : list A) (p : A → bool) (x : A) (rest : list A) :
  SkipWhileIterable l p = x :: rest → p x = false.
Proof.
  induction l as [|y l IH]; simpl; [done|].
  destruct (p y) eqn:Hp; [done|]. by intros [= <- _].
Qed.

(** X9: [takeWhile] and [skipWhile] cut the dataframe in two at the first row
    that fails the predicate: the rows taken all pass it, the first row
    left fails it, and the two parts put together are the dataframe.
    [takeUntil] and [skipUntil] cut at the first row that passes. *)
Theorem takeWhile_skipWhile_cut (df : DataFrame) (p : value → bool) :
  values (takeWhile df p) ++ values (skipWhile df p) = values df
  ∧ pairs (takeWhile df p) ++ pairs (skipWhile df p) = pairs df
  ∧ forallb p (values (takeWhile df p)) = true
  ∧ (∀ row, first (skipWhile df p) = Ok row → p row = false)
  ∧ values (takeUntil df p) ++ values (skipUntil df p) = values df
  ∧ forallb (λ row, negb (p row)) (values (takeUntil df p)) = true
  ∧ (∀ row, first (skipUntil df p) = Ok row → p row = true).
Proof.
  split_and!.
  - apply TakeWhile_SkipWhile.
  - apply (TakeWhile_SkipWhile (pairs df)).
  - apply TakeWhile_forall.
  - intros row. unfold first.
    change (values (skipWhile df p)) with (SkipWhileIterable (values df) p).
    destruct (SkipWhileIterable (values df) p) as [|x rest] eqn:Hs; [done|].
    intros [= <-]. by apply SkipWhile_head in Hs.
  - apply TakeWhile_SkipWhile.
  - apply (TakeWhile_forall (values df) (λ row, negb (p row))).
  - intros row. unfold first.
    change (values (skipUntil df p))
      with (SkipWhileIterable (values df) (λ row, negb (p row))).
    destruct (SkipWhileIterable (values df) (λ row, negb (p row)))
      as [|x rest] eqn:Hs; [done|].
    intros [= <-]. apply SkipWhile_head in Hs. by apply negb_false_iff in Hs.
Qed.

(** ** Concatenation and prefixes *)

Lemma filter_concat {A} (p : A → bool) (ls : list (list A)) :
  List.filter p (concat ls) = concat (List.filter p <$> ls).
Proof.
  induction ls as [|l ls IH]; simpl; [done|]. by rewrite List.filter_app, IH.
Qed.

Lemma foldl_append_names (dataframes : list DataFrame) (acc : list string) :
  foldl (λ names content, names ++ columnNames content) acc dataframes
  = acc ++ concat (columnNames <$> dataframes).
Proof.
  revert acc. induction dataframes as [|df dfs IH]; intros acc; simpl.
  - by rewrite app_nil_r.
  - by rewrite IH, app_assoc.
Qed.

Lemma concat_static_names (dataframes : list DataFrame) :
  getColumnNames (concat_static dataframes)
  = initColumnNames (makeDistinct (concat (getColumnNames <$> dataframes))).
Proof.
  unfold getColumnNames at 1.
  change (columnNames (concat_static dataframes))
    with (initColumnNames
            (makeDistinct
               (foldl (λ names content, names ++ columnNames content)
                      [] dataframes))).
  by rewrite foldl_append_names.
Qed.

(** X10: [concat] puts the rows of its inputs one after the other: the
    extracted rows and pairs of the result are those of the inputs in
    order, the counts add up, and the columns are the columns of the inputs
    in the order in which they are first met, renamed by the
    constructor. *)
Theorem concat_appends_in_order (dataframes : list DataFrame) :
  toArray (concat_static dataframes) = concat (toArray <$> dataframes)
  ∧ toPairs (concat_static dataframes) = concat (toPairs <$> dataframes)
  ∧ count (concat_static dataframes) = sum_list (count <$> dataframes)
  ∧ getColumnNames (concat_static dataframes)
    = initColumnNames (makeDistinct (concat (getColumnNames <$> dataframes))).
Proof.
  split_and!.
  - rewrite toArray_filter.
    change (values (concat_static dataframes)) with (concat (values <$> dataframes)).
    rewrite filter_concat, <- list_fmap_compose. f_equal.
    apply list_fmap_ext. intros _ df _. simpl. by rewrite toArray_filter.
  - rewrite toPairs_filter.
    change (pairs (concat_static dataframes)) with (concat (pairs <$> dataframes)).
    rewrite filter_concat, <- list_fmap_compose. f_equal.
    apply list_fmap_ext. intros _ df _. simpl. by rewrite toPairs_filter.
  - rewrite count_length.
    change (values (concat_static dataframes)) with (concat (values <$> dataframes)).
    rewrite length_concat, <- list_fmap_compose. f_equal.
    apply list_fmap_ext. intros _ df _. simpl. by rewrite count_length.
  - apply concat_static_names.
Qed.

Lemma strict_eq_refl (v : value) : strict_eq v v = true.
Proof. destruct v; simpl; try done; by apply bool_decide_true. Qed.

Lemma at_loop_app (front back : list (value * value)) (key : value) :
  (∀ pair, pair ∈ front → strict_eq pair.1 key = false) →
  at_loop (front ++ back) key = at_loop back key.
Proof.
  induction front as [|[k v] front IH]; intros Hno; simpl; [done|].
  pose proof (Hno (k, v)) as Hk. simpl in Hk. rewrite Hk by left.
  apply IH. intros pair Hin. apply Hno. by right.
Qed.

(** X11: [insertPair] puts the pair before the rows of the dataframe and
    [appendPair] after them.  A lookup of the key of an inserted pair finds
    the inserted row, whatever the dataframe holds; a lookup of the key of an
    appended pair finds it when no earlier row has that key.  The fields
    of an inserted row come first among the columns. *)
Theorem insertPair_appendPair_position (df : DataFrame) (key row : value) :
  pairs (insertPair df (key, row)) = (key, row) :: pairs df
  ∧ values (insertPair df (key, row)) = row :: values df
  ∧ pairs (appendPair df (key, row)) = pairs df ++ [(key, row)]
  ∧ values (appendPair df (key, row)) = values df ++ [row]
  ∧ at_ (insertPair df (key, row)) key = row
  ∧ ((∀ pair, pair ∈ pairs df → strict_eq pair.1 key = false) →
     at_ (appendPair df (key, row)) key = row)
  ∧ (∀ ref props, row = VObj ref props →
       getColumnNames (insertPair df (key, row))
       = initColumnNames (makeDistinct (props.*1 ++ getColumnNames df))
       ∧ getColumnNames (appendPair df (key, row))
         = initColumnNames (makeDistinct (getColumnNames df ++ props.*1))).
Proof.
  assert (Hip : pairs (insertPair df (key, row)) = (key, row) :: pairs df).
  { change (pairs (insertPair df (key, row)))
      with (concat [[(key, row)]; pairs df]). simpl. by rewrite ?app_nil_r. }
  assert (Hiv : values (insertPair df (key, row)) = row :: values df).
  { change (values (insertPair df (key, row)))
      with (concat [[row]; values df]). simpl. by rewrite ?app_nil_r. }
  assert (Hap : pairs (appendPair df (key, row)) = pairs df ++ [(key, row)]).
  { change (pairs (appendPair df (key, row)))
      with (concat [pairs df; [(key, row)]]). simpl. by rewrite ?app_nil_r. }
  assert (Hav : values (appendPair df (key, row)) = values df ++ [row]).
  { change (values (appendPair df (key, row)))
      with (concat [values df; [row]]). simpl. by rewrite ?app_nil_r. }
  split_and!; try done.
  - unfold at_, none. rewrite Hiv, Hip. simpl. by rewrite strict_eq_refl.
  - intros Hno. unfold at_, none. rewrite Hav, Hap.
    destruct (values df ++ [row]) as [|x l] eqn:Hvals.
    { by apply app_eq_nil in Hvals as [_ Hvals]. }
    rewrite at_loop_app by done. simpl. by rewrite strict_eq_refl.
  - intros ref props ->.
    unfold insertPair, appendPair, concat_. rewrite !concat_static_names.
    simpl. by rewrite ?app_nil_r.
Qed.

(** X12: [head] with a positive number takes that many rows from the front, as
    many as there are; with a negative number it leaves out that many rows
    at the end; with zero it returns the empty dataframe, which has no
    columns either. *)
Theorem head_takes_a_prefix (df : DataFrame) (k : nat) :
  values (DataFrame_head df (Z.of_nat (S k))) = take (S k) (values df)
  ∧ pairs (DataFrame_head df (Z.of_nat (S k))) = take (S k) (pairs df)
  ∧ count (DataFrame_head df (Z.of_nat (S k))) = S k `min` count df
  ∧ values (DataFrame_head df (- Z.of_nat (S k)))
    = take (count df - S k) (values df)
  ∧ values (DataFrame_head df (- Z.of_nat (S k)))
    ++ drop (count df - S k) (values df) = values df
  ∧ count (DataFrame_head df (- Z.of_nat (S k))) = count df - S k
  ∧ values (DataFrame_head df 0) = []
  ∧ getColumnNames (DataFrame_head df 0) = [].
Proof.
  assert (Hpos : DataFrame_head df (Z.of_nat (S k)) = DataFrame_take df (Z.of_nat (S k))).
  { unfold DataFrame_head. by rewrite bool_decide_false, bool_decide_false by lia. }
  assert (Hneg : DataFrame_head df (- Z.of_nat (S k))
                 = DataFrame_take df (Z.of_nat (count df - S k))).
  { unfold DataFrame_head. rewrite bool_decide_false, bool_decide_true by lia.
    destruct (decide (S k ≤ count df)) as [Hle|Hgt].
    - f_equal. lia.
    - replace (count df - S k) with 0 by lia.
      assert (Hz : ∀ z, (z ≤ 0)%Z → DataFrame_take df z = DataFrame_take df 0).
      { intros z Hz. unfold DataFrame_take, TakeIndex, TakeIterable.
        by replace (Z.to_nat z) with (Z.to_nat 0) by lia. }
      apply Hz. lia. }
  rewrite Hpos, Hneg, !count_length.
  change (values (DataFrame_take df ?n)) with (take (Z.to_nat n) (values df)).
  change (pairs (DataFrame_take df ?n)) with (take (Z.to_nat n) (pairs df)).
  rewrite !Nat2Z.id, take_drop, !length_take.
  split_and!; try done. lia.
Qed.

(** ** The index *)

Lemma mapM_result_Forall2 {A B} (f : A → result B) (l : list A) (ys : list B) :
  mapM_result f l = Ok ys ↔ Forall2 (λ x y, f x = Ok y) l ys.
Proof.
  revert ys. induction l as [|x l IH]; intros ys; simpl.
  - split; [intros [= <-]; constructor|by intros ->%Forall2_nil_inv_l].
  - split.
    + destruct (f x) as [y|msg] eqn:Hx; simpl; [|done].
      destruct (mapM_result f l) as [ys'|msg] eqn:Hl; simpl; [|done].
      intros [= <-]. constructor; [done|]. by apply IH.
    + intros (y & ys' & Hx & Hl & ->)%Forall2_cons_inv_l.
      rewrite Hx. simpl. apply IH in Hl. by rewrite Hl.
Qed.

Lemma at_loop_zip_find (f : value → result value) (rows keys : list value)
    (key : value) :
  Forall2 (λ row k, f row = Ok k) rows keys →
  at_loop (zip keys rows) key
  = default VUndefined
      (List.find (λ row, match f row with
                         | Ok k => strict_eq k key
                         | Throw _ => false
                         end) rows).
Proof.
  induction 1 as [|row k rows keys Hk _ IH]; simpl; [done|].
  rewrite Hk. by destruct (strict_eq k key).
Qed.

(** X13: After [setIndex] the rows are the same and each one is paired with its
    cell in the column, so that [at] finds the first row whose cell is
    [===] the key, and nothing when there is none. *)
Theorem setIndex_at_looks_up_by_column (df indexed : DataFrame) (columnName : string)
    (Hset : setIndex df columnName = Ok indexed) :
  values indexed = values df
  ∧ length (pairs indexed) = length (values df)
  ∧ (pairs indexed).*2 = values df
  ∧ mapM_result (λ row, get_prop row columnName) (values df)
    = Ok (pairs indexed).*1
  ∧ ∀ key,
      at_ indexed key
      = default VUndefined
          (List.find (λ row, match get_prop row columnName with
                             | Ok cell => strict_eq cell key
                             | Throw _ => false
                             end) (values df)).
Proof.
  unfold setIndex, getSeries in Hset.
  destruct (mapM_result (λ row, get_prop row columnName) (values df))
    as [cells|msg] eqn:Hcells; [|done].
  simpl in Hset. injection Hset as <-.
  pose proof Hcells as Hall. apply mapM_result_Forall2 in Hall.
  pose proof (Forall2_length _ _ _ Hall) as Hlen.
  assert (Hpairs : pairs (withIndex df (inl cells)) = zip cells (values df)).
  { change (pairs (withIndex df (inl cells)))
      with (zip (take (length (values df)) cells) (values df)).
    by rewrite take_ge by lia. }
  change (initFromConfig _) with (withIndex df (inl cells)).
  change (values (withIndex df (inl cells))) with (values df).
  rewrite Hpairs. split_and!.
  - done.
  - rewrite length_zip_with. lia.
  - apply snd_zip. lia.
  - by rewrite fst_zip by lia.
  - intros key. unfold at_, none.
    change (values (withIndex df (inl cells))) with (values df).
    rewrite Hpairs.
    destruct (values df) as [|row rows] eqn:Hrows.
    + done.
    + by apply at_loop_zip_find.
Qed.

Lemma setIndex_at_looks_up_by_column_witness :
  ∃ indexed, setIndex one_column "A" = Ok indexed
             ∧ at_ indexed (VNum 5) = VObj 1 [("A", VNum 5)]
             ∧ at_ indexed (VNum 0) = VUndefined.
Proof.
  eexists. split; [reflexivity|].
  split.
  - by rewrite (proj2 (proj2 (proj2 (proj2
         (setIndex_at_looks_up_by_column one_column _ "A" eq_refl))))).
  - by rewrite (proj2 (proj2 (proj2 (proj2
         (setIndex_at_looks_up_by_column one_column _ "A" eq_refl))))).
Defined.

(** X14: [withIndex] keeps every row among the values but pairs only as many of
    them as there are keys: with fewer keys than rows, [toPairs] gives
    fewer rows than [toArray].  [resetIndex] pairs each row with its
    position again. *)
Theorem withIndex_pairs_as_many_as_keys (df : DataFrame) (keys : list value) :
  values (withIndex df (inl keys)) = values df
  ∧ pairs (withIndex df (inl keys)) = zip keys (values df)
  ∧ length (pairs (withIndex df (inl keys))) = length keys `min` count df
  ∧ values (resetIndex (withIndex df (inl keys))) = values df
  ∧ (pairs (resetIndex (withIndex df (inl keys)))).*1
    = count_from 0 (count df)
  ∧ (pairs (resetIndex (withIndex df (inl keys)))).*2 = values df.
Proof.
  rewrite !count_length.
  assert (Hpairs : pairs (withIndex df (inl keys)) = zip keys (values df)).
  { change (pairs (withIndex df (inl keys)))
      with (zip (take (length (values df)) keys) (values df)).
    revert keys. induction (values df) as [|v vals IH]; intros [|k keys]; simpl;
      try done. by rewrite IH. }
  rewrite Hpairs. split_and!; try done.
  - rewrite length_zip_with. lia.
  - destruct (resetIndex_content (withIndex df (inl keys))) as (_ & _ & ->).
    apply fst_zip_count.
  - destruct (resetIndex_content (withIndex df (inl keys))) as (_ & _ & ->).
    apply fst_zip_count.
Qed.

(** ** Adding, dropping and moving columns *)

Lemma hasSeries_false (df : DataFrame) (columnName : string) :
  hasSeries df columnName = false →
  toLowerCase columnName ∉ toLowerCase <$> getColumnNames df.
Proof.
  intros Hhas (n & Hn & Hin)%list_elem_of_fmap.
  assert (Htrue : hasSeries df columnName = true).
  { apply hasSeries_loop_true. by exists n. }
  congruence.
Qed.

Lemma initColumnNames_keeps_new_name (names : list string) (c : string) :
  toLowerCase c ∉ toLowerCase <$> names →
  c ∈ initColumnNames (makeDistinct (names ++ [c])).
Proof.
  intros Hc.
  assert (Hnotin : c ∉ names).
  { intros Hin. apply Hc. by apply list_elem_of_fmap_2. }
  rewrite makeDistinct_snoc, bool_decide_false by done.
  assert (Hocc : occurrences (toLowerCase c) (makeDistinct names) = 0).
  { apply occurrences_absent. intros (n & Hn & Hin)%list_elem_of_fmap.
    apply Hc. rewrite Hn. apply list_elem_of_fmap_2. by apply makeDistinct_elem_of. }
  rewrite initColumnNames_renamed.
  apply list_elem_of_lookup. exists (length (makeDistinct names)).
  rewrite list_lookup_imap, lookup_app_r, Nat.sub_diag by lia. simpl.
  unfold renamed. rewrite bool_decide_false; [done|].
  rewrite occurrences_app, Hocc. simpl. rewrite bool_decide_true by done. lia.
Qed.

(** X15: On a dataframe with rows, [ensureSeries] gives a dataframe that has the
    column: the dataframe itself when a column of that name exists, case
    ignored, and otherwise the result of [withSeries], in which the new
    column keeps its name as given. *)
Theorem ensureSeries_has_the_column (alloc : nat → nat) (df : DataFrame)
    (columnName : string) (series : ISeries + (DataFrame → ISeries))
    (Hrows : values df ≠ []) :
  hasSeries (ensureSeries alloc df columnName series) columnName = true
  ∧ (hasSeries df columnName = true →
     ensureSeries alloc df columnName series = df)
  ∧ (hasSeries df columnName = false →
     columnName ∈ getColumnNames (ensureSeries alloc df columnName series)
     ∧ index (ensureSeries alloc df columnName series) = index df
     ∧ length (pairs (ensureSeries alloc df columnName series))
       = length (pairs df)).
Proof.
  unfold ensureSeries.
  destruct (hasSeries df columnName) eqn:Hhas; [done|].
  destruct (withSeries_pairs alloc df columnName series Hrows)
    as (Hpairs & _ & Hindex & Hnames).
  assert (Hin : columnName ∈ getColumnNames (withSeries alloc df columnName series)).
  { rewrite Hnames. by apply initColumnNames_keeps_new_name, hasSeries_false. }
  split_and!; try done.
  - apply hasSeries_loop_true. by exists columnName.
  - intros _. split_and!; [done|done|]. by rewrite Hpairs, length_imap.
Qed.

Lemma ensureSeries_has_the_column_witness :
  hasSeries (ensureSeries (λ i, 10 + i) two_rows_A "B" (inl series_at_1_0)) "B" = true
  ∧ hasSeries (ensureSeries (λ i, 10 + i) two_rows_A "a" (inl series_at_1_0)) "a" = true.
Proof.
  split.
  - by apply (ensureSeries_has_the_column (λ i, 10 + i) two_rows_A "B").
  - by apply (ensureSeries_has_the_column (λ i, 10 + i) two_rows_A "a").
Defined.

Lemma assoc_delete_prop_eq (props : list (string * value)) (name : string) :
  assoc name (delete_prop props name) = None.
Proof.
  induction props as [|[k v] props IH]; simpl; [done|].
  case_bool_decide as Hk; [done|]. simpl. by rewrite bool_decide_false.
Qed.

Lemma assoc_delete_prop_ne (props : list (string * value)) (name other : string) :
  other ≠ name → assoc other (delete_prop props name) = assoc other props.
Proof.
  intros Hne. induction props as [|[k v] props IH]; simpl; [done|].
  case_bool_decide as Hk.
  - subst k. by rewrite bool_decide_false.
  - simpl. by rewrite IH.
Qed.

Lemma delete_prop_absent (props : list (string * value)) (name dropped : string) :
  assoc name props = None → assoc name (delete_prop props dropped) = None.
Proof.
  destruct (decide (name = dropped)) as [->|Hne].
  - intros _. apply assoc_delete_prop_eq.
  - by rewrite assoc_delete_prop_ne.
Qed.

Lemma assoc_foldl_delete (props : list (string * value)) (dropped : list string)
    (name : string) :
  assoc name (foldl delete_prop props dropped)
  = if bool_decide (name ∈ dropped) then None else assoc name props.
Proof.
  revert props. induction dropped as [|d dropped IH]; intros props; simpl.
  - done.
  - rewrite IH. destruct (decide (name = d)) as [->|Hne].
    + rewrite (bool_decide_true (d ∈ d :: dropped)) by left.
      rewrite assoc_delete_prop_eq. by case_bool_decide.
    + rewrite assoc_delete_prop_ne by done.
      apply (f_equal (λ b : bool, if b then None else assoc name props)).
      apply bool_decide_ext. rewrite elem_of_cons. intuition congruence.
Qed.

Lemma filter_lower_NoDup (p : string → bool) (names : list string) :
  NoDup (toLowerCase <$> names) → NoDup (toLowerCase <$> List.filter p names).
Proof.
  induction names as [|n names IH]; simpl; [done|].
  intros [Hn Hnd]%NoDup_cons. destruct (p n); simpl; [|by apply IH].
  apply NoDup_cons. split; [|by apply IH].
  intros (m & Hm & Hin)%list_elem_of_fmap. apply Hn.
  rewrite Hm. apply list_elem_of_fmap_2.
  apply list_elem_of_In, filter_In in Hin as [Hin _]. by apply list_elem_of_In.
Qed.

Lemma not_listed_filter (dropped names : list string) (c : string) :
  c ∈ List.filter (not_listed dropped) names ↔ c ∈ names ∧ c ∉ dropped.
Proof.
  rewrite !list_elem_of_In, filter_In, <- !list_elem_of_In.
  unfold not_listed. rewrite negb_true_iff, bool_decide_eq_false. done.
Qed.

(** X16: [dropSeries] keeps the index and the number of rows; each row is
    replaced by a copy without the listed fields, the other fields as they
    were.  Names are compared exactly, so a name that differs in case from a
    column drops nothing.  The remaining columns are renamed by the
    constructor; they are the columns that were not listed when the
    dataframe's columns are distinct ignoring case. *)
Theorem dropSeries_removes_listed_fields (alloc allocPairs : nat → nat)
    (df : DataFrame) (columnOrColumns : list string) :
  index (dropSeries alloc allocPairs df columnOrColumns) = index df
  ∧ (pairs (dropSeries alloc allocPairs df columnOrColumns)).*1 = (pairs df).*1
  ∧ length (values (dropSeries alloc allocPairs df columnOrColumns))
    = length (values df)
  ∧ (∀ i row, values df !! i = Some row →
       ∃ props,
         values (dropSeries alloc allocPairs df columnOrColumns) !! i
         = Some (VObj (alloc i) props)
         ∧ ∀ name, assoc name props
                   = if bool_decide (name ∈ columnOrColumns) then None
                     else assoc name (own_props row))
  ∧ (∀ i key row, pairs df !! i = Some (key, row) →
       ∃ props,
         pairs (dropSeries alloc allocPairs df columnOrColumns) !! i
         = Some (key, VObj (allocPairs i) props)
         ∧ ∀ name, assoc name props
                   = if bool_decide (name ∈ columnOrColumns) then None
                     else assoc name (own_props row))
  ∧ getColumnNames (dropSeries alloc allocPairs df columnOrColumns)
    = initColumnNames (List.filter (not_listed columnOrColumns) (getColumnNames df))
  ∧ (NoDup (toLowerCase <$> getColumnNames df) →
     getColumnNames (dropSeries alloc allocPairs df columnOrColumns)
     = List.filter (not_listed columnOrColumns) (getColumnNames df)
     ∧ ∀ c, c ∈ getColumnNames (dropSeries alloc allocPairs df columnOrColumns)
            ↔ c ∈ getColumnNames df ∧ c ∉ columnOrColumns).
Proof.
  split_and!; try done.
  - change (pairs (dropSeries alloc allocPairs df columnOrColumns))
      with (imap (λ i (pair : value * value),
                    (pair.1, VObj (allocPairs i)
                               (foldl delete_prop (own_props pair.2) columnOrColumns)))
                 (pairs df)).
    apply list_eq. intros i. rewrite !list_lookup_fmap, list_lookup_imap.
    by destruct (pairs df !! i).
  - change (values (dropSeries alloc allocPairs df columnOrColumns))
      with (imap (λ i row, VObj (alloc i)
                             (foldl delete_prop (own_props row) columnOrColumns))
                 (values df)).
    by rewrite length_imap.
  - intros i row Hi.
    exists (foldl delete_prop (own_props row) columnOrColumns). split.
    + change (values (dropSeries alloc allocPairs df columnOrColumns))
        with (imap (λ i row, VObj (alloc i)
                               (foldl delete_prop (own_props row) columnOrColumns))
                   (values df)).
      by rewrite list_lookup_imap, Hi.
    + intros name. apply assoc_foldl_delete.
  - intros i key row Hi.
    exists (foldl delete_prop (own_props row) columnOrColumns). split.
    + change (pairs (dropSeries alloc allocPairs df columnOrColumns))
        with (imap (λ i (pair : value * value),
                      (pair.1, VObj (allocPairs i)
                                 (foldl delete_prop (own_props pair.2) columnOrColumns)))
                   (pairs df)).
      by rewrite list_lookup_imap, Hi.
    + intros name. apply assoc_foldl_delete.
  - intros Hnd.
    assert (Hnames : getColumnNames (dropSeries alloc allocPairs df columnOrColumns)
                     = List.filter (not_listed columnOrColumns) (getColumnNames df)).
    { apply initColumnNames_distinct. by apply filter_lower_NoDup. }
    split; [done|]. intros c. rewrite Hnames. apply not_listed_filter.
Qed.

(** ** [subset], [reorderSeries] and [toRows] *)

Lemma get_prop_ok (row : value) (name : string) :
  loose_ne_undefined row = true → ∃ cell, get_prop row name = Ok cell.
Proof.
  destruct row; simpl; try done; eauto.
  intros _. case_bool_decide; eauto.
Qed.

Lemma get_prop_throws (row : value) (name : string) :
  loose_ne_undefined row = false → ∃ msg, get_prop row name = Throw msg.
Proof. destruct row; simpl; try done; eauto. Qed.

Lemma set_prop_keys (props : list (string * value)) (name : string) (v : value) :
  (set_prop props name v).*1
  = if bool_decide (name ∈ props.*1) then props.*1 else props.*1 ++ [name].
Proof.
  induction props as [|[k w] props IH]; [done|]. cbn [set_prop].
  destruct (decide (k = name)) as [->|Hk].
  - rewrite (bool_decide_true (name = name)) by done.
    rewrite !fmap_cons. cbn [fst]. by rewrite bool_decide_true by left.
  - rewrite (bool_decide_false (k = name)) by done.
    rewrite !fmap_cons. cbn [fst]. rewrite IH.
    rewrite (bool_decide_ext (name ∈ k :: props.*1) (name ∈ props.*1)).
    + by case_bool_decide.
    + rewrite elem_of_cons. intuition congruence.
Qed.

Lemma copy_columns_keys (row : value) (names : list string)
    (output out : list (string * value)) :
  copy_columns row names output = Ok out →
  out.*1 = output.*1 ++ first_seen (list_to_set output.*1) names.
Proof.
  revert output. induction names as [|c names IH]; intros output; simpl.
  - intros [= <-]. by rewrite app_nil_r.
  - destruct (get_prop row c) as [v|msg]; simpl; [|done].
    intros Hout. apply IH in Hout. rewrite Hout, set_prop_keys.
    rewrite (bool_decide_ext (c ∈ (list_to_set output.*1 : gset string))
                             (c ∈ output.*1)) by apply elem_of_list_to_set.
    case_bool_decide as Hc; [done|].
    rewrite <- app_assoc. simpl. do 3 f_equal.
    rewrite list_to_set_app_L. simpl. rewrite (right_id_L ∅ (∪)).
    apply (comm_L (∪)).
Qed.

Lemma copy_columns_cells (row : value) (names : list string)
    (output out : list (string * value)) (c : string) :
  copy_columns row names output = Ok out →
  (c ∈ names → ∃ cell, get_prop row c = Ok cell ∧ assoc c out = Some cell)
  ∧ (c ∉ names → assoc c out = assoc c output).
Proof.
  revert output. induction names as [|n names IH]; intros output; simpl.
  - intros [= <-]. split; [by intros ?%elem_of_nil|done].
  - destruct (get_prop row n) as [v|msg] eqn:Hn; simpl; [|done].
    intros Hout. destruct (IH _ Hout) as [Hin Hnotin].
    destruct (decide (c ∈ names)) as [Hc|Hc].
    + split; [by intros _; apply Hin|].
      intros Hno. exfalso. apply Hno. by right.
    + split.
      * intros [->|?]%elem_of_cons; [|done].
        exists v. split; [done|]. rewrite (Hnotin Hc). apply assoc_set_prop_eq.
      * intros [Hne _]%not_elem_of_cons. rewrite (Hnotin Hc).
        by apply assoc_set_prop_ne.
Qed.

Lemma copy_columns_succeeds (row : value) (names : list string)
    (output : list (string * value)) :
  (∃ out, copy_columns row names output = Ok out)
  ↔ names = [] ∨ loose_ne_undefined row = true.
Proof.
  split.
  - intros [out Hout]. destruct names as [|c names]; [by left|]. right.
    destruct (loose_ne_undefined row) eqn:Hrow; [done|].
    destruct (get_prop_throws row c Hrow) as [msg Hmsg].
    simpl in Hout. by rewrite Hmsg in Hout.
  - intros [->|Hrow]; [by eexists|].
    revert output. induction names as [|c names IH]; intros output; simpl.
    + by eexists.
    + destruct (get_prop_ok row c Hrow) as [cell ->]. simpl. apply IH.
Qed.

Lemma mapM_result_positions {A B} (f : A * nat → result B) (l : list A)
    (ys : list B) :
  mapM_result f (imap (λ i x, (x, i)) l) = Ok ys →
  length ys = length l
  ∧ ∀ i x, l !! i = Some x → ∃ y, ys !! i = Some y ∧ f (x, i) = Ok y.
Proof.
  intros Hall%mapM_result_Forall2. split.
  - apply Forall2_length in Hall. by rewrite length_imap in Hall.
  - intros i x Hi.
    destruct (Forall2_lookup_l _ _ _ i (x, i) Hall) as (y & Hy & Hf).
    + by rewrite list_lookup_imap, Hi.
    + by exists y.
Qed.

Lemma mapM_result_succeeds {A B} (f : A → result B) (l : list A) :
  (∃ ys, mapM_result f l = Ok ys) ↔ ∀ x, x ∈ l → ∃ y, f x = Ok y.
Proof.
  induction l as [|x l IH]; simpl.
  - split; [by intros _ x ?%elem_of_nil|by eexists].
  - split.
    + intros [ys Hys].
      destruct (f x) as [y|msg] eqn:Hx; simpl in Hys; [|done].
      destruct (mapM_result f l) as [ys'|msg] eqn:Hl; simpl in Hys; [|done].
      intros z [->|Hz]%elem_of_cons; [by eexists|].
      apply IH; [by eexists|done].
    + intros Hall. destruct (Hall x) as [y ->]; [left|]. simpl.
      destruct (proj2 IH) as [ys ->].
      * intros z Hz. apply Hall. by right.
      * by eexists.
Qed.

(** X17: When [subset] can traverse the rows, the result has the index and as
    many rows as the dataframe; each row is a new object whose fields are
    the requested names, each once, a name that the row lacks holding
    [undefined], and the columns are the requested names renamed by
    the constructor. *)
Theorem subset_projects_each_row (alloc allocPairs : nat → nat)
    (df sub : DataFrame) (names : list string)
    (Hsub : subset alloc allocPairs df names = Ok sub) :
  index sub = index df
  ∧ getColumnNames sub = initColumnNames names
  ∧ length (values sub) = length (values df)
  ∧ length (pairs sub) = length (pairs df)
  ∧ (∀ i row, values df !! i = Some row →
       ∃ out,
         values sub !! i = Some (VObj (alloc i) out)
         ∧ out.*1 ≡ₚ makeDistinct names
         ∧ ∀ c, c ∈ names →
                ∃ cell, get_prop row c = Ok cell ∧ assoc c out = Some cell)
  ∧ (∀ i key row, pairs df !! i = Some (key, row) →
       ∃ out,
         pairs sub !! i = Some (key, VObj (allocPairs i) out)
         ∧ out.*1 ≡ₚ makeDistinct names
         ∧ ∀ c, c ∈ names →
                ∃ cell, get_prop row c = Ok cell ∧ assoc c out = Some cell).
Proof.
  unfold subset in Hsub.
  destruct (mapM_result _ (imap (λ i v, (v, i)) (values df)))
    as [vals|msg] eqn:Hvals; [|done].
  simpl in Hsub.
  destruct (mapM_result _ (imap (λ i pair, (pair, i)) (pairs df)))
    as [prs|msg] eqn:Hprs; [|done].
  simpl in Hsub. injection Hsub as <-.
  apply mapM_result_positions in Hvals as [Hvlen Hvals].
  apply mapM_result_positions in Hprs as [Hplen Hprs].
  split_and!; try done.
  - intros i row Hi. destruct (Hvals i row Hi) as (y & Hy & Hf). simpl in Hf.
    destruct (copy_columns row names []) as [out|msg] eqn:Hout; [|done].
    simpl in Hf. injection Hf as <-. exists out. split_and!.
    + done.
    + apply copy_columns_keys in Hout. by rewrite Hout.
    + intros c Hc. by apply (copy_columns_cells row names [] out c Hout).
  - intros i key row Hi. destruct (Hprs i (key, row) Hi) as (y & Hy & Hf).
    simpl in Hf.
    destruct (copy_columns row names []) as [out|msg] eqn:Hout; [|done].
    simpl in Hf. injection Hf as <-. exists out. split_and!.
    + done.
    + apply copy_columns_keys in Hout. by rewrite Hout.
    + intros c Hc. by apply (copy_columns_cells row names [] out c Hout).
Qed.

Lemma subset_projects_each_row_witness :
  ∃ sub, reorderSeries (λ i, 10 + i) (λ i, 20 + i) run_of_two_then_one ["B"; "C"; "B"]
         = Ok sub
         ∧ length (values sub) = 3
         ∧ values sub !! 0 = Some (VObj 10 [("B", VNum 10); ("C", VUndefined)]).
Proof.
  eexists. split; [reflexivity|].
  split; [|reflexivity].
  apply (subset_projects_each_row (λ i, 10 + i) (λ i, 20 + i) run_of_two_then_one _
           ["B"; "C"; "B"] eq_refl).
Defined.

(** X18: [subset] fails exactly when a column is requested and some row, among
    the values or among the pairs, is [null] or [undefined]. *)
Theorem subset_fails_on_missing_row (alloc allocPairs : nat → nat)
    (df : DataFrame) (names : list string) :
  (∃ sub, subset alloc allocPairs df names = Ok sub)
  ↔ names = []
    ∨ ((∀ row, row ∈ values df → loose_ne_undefined row = true)
       ∧ (∀ pair, pair ∈ pairs df → loose_ne_undefined pair.2 = true)).
Proof.
  assert (Hrow : ∀ (alloc : nat → nat) row i,
            (∃ y, (output ← copy_columns row names []; Ok (VObj (alloc i) output)) = Ok y)
            ↔ names = [] ∨ loose_ne_undefined row = true).
  { intros al row i. rewrite <- (copy_columns_succeeds row names []). split.
    - intros [y Hy]. destruct (copy_columns row names []); [by eexists|done].
    - intros [out ->]. by eexists. }
  assert (Hvals : (∃ vals, mapM_result
                     (λ xi : value * nat,
                        output ← copy_columns xi.1 names [];
                        Ok (VObj (alloc xi.2) output))
                     (imap (λ i v, (v, i)) (values df)) = Ok vals)
                  ↔ names = [] ∨ ∀ row, row ∈ values df → loose_ne_undefined row = true).
  { rewrite mapM_result_succeeds. split.
    - intros Hall. destruct names as [|c names]; [by left|]. right.
      intros row [i Hi]%list_elem_of_lookup_1.
      destruct (proj1 (Hrow alloc row i)) as [|Hok]; [|done|done].
      apply (Hall (row, i)). apply list_elem_of_lookup. exists i.
      by rewrite list_lookup_imap, Hi.
    - intros Hok [row i] [j Hj]%list_elem_of_lookup_1.
      rewrite list_lookup_imap in Hj.
      destruct (values df !! j) as [row'|] eqn:Hrow'; [|done].
      injection Hj as <- <-. apply (Hrow alloc). destruct Hok as [->|Hok]; [by left|].
      right. apply Hok. by apply list_elem_of_lookup_2 in Hrow'. }
  assert (Hprs : (∃ prs, mapM_result
                     (λ xi : value * value * nat,
                        output ← copy_columns xi.1.2 names [];
                        Ok (xi.1.1, VObj (allocPairs xi.2) output))
                     (imap (λ i pair, (pair, i)) (pairs df)) = Ok prs)
                  ↔ names = []
                    ∨ ∀ pair, pair ∈ pairs df → loose_ne_undefined pair.2 = true).
  { rewrite mapM_result_succeeds. split.
    - intros Hall. destruct names as [|c names]; [by left|]. right.
      intros pair [i Hi]%list_elem_of_lookup_1.
      destruct (proj1 (Hrow allocPairs pair.2 i)) as [|Hok]; [|done|done].
      destruct (Hall (pair, i)) as [y Hy].
      { apply list_elem_of_lookup. exists i. by rewrite list_lookup_imap, Hi. }
      cbn [fst snd] in Hy.
      destruct (copy_columns pair.2 (c :: names) []); [by eexists|done].
    - intros Hok [pair i] [j Hj]%list_elem_of_lookup_1.
      rewrite list_lookup_imap in Hj.
      destruct (pairs df !! j) as [pair'|] eqn:Hpair'; [|done].
      injection Hj as <- <-. simpl.
      destruct (proj2 (copy_columns_succeeds pair'.2 names [])) as [out ->].
      + destruct Hok as [->|Hok]; [by left|].
        right. apply Hok. by apply list_elem_of_lookup_2 in Hpair'.
      + by eexists. }
  unfold subset. split.
  - intros [sub Hsub].
    destruct (mapM_result _ (imap (λ i v, (v, i)) (values df)))
      as [vals|msg] eqn:Hv; [|done].
    simpl in Hsub.
    destruct (mapM_result _ (imap (λ i pair, (pair, i)) (pairs df)))
      as [prs|msg] eqn:Hp; [|done].
    destruct (proj1 Hvals) as [|Hv']; [by eexists|by left|].
    destruct (proj1 Hprs) as [|Hp']; [by eexists|by left|].
    by right.
  - intros Hok.
    destruct (proj2 Hvals) as [vals ->]; [destruct Hok as [|[]]; auto|].
    simpl.
    destruct (proj2 Hprs) as [prs ->]; [destruct Hok as [|[]]; auto|].
    by eexists.
Qed.

(** ** Moving columns, rows as arrays *)

Lemma columnsToMove_elem_of (existing requested : list string) (c : string) :
  c ∈ columnsToMove existing requested ↔ c ∈ requested ∧ c ∈ existing.
Proof.
  unfold columnsToMove.
  rewrite !list_elem_of_In, filter_In, <- !list_elem_of_In.
  by rewrite bool_decide_eq_true.
Qed.

Lemma moved_columns_perm (existing requested : list string) :
  NoDup existing → NoDup requested →
  columnsToMove existing requested ++ untouchedColumnNames existing requested
  ≡ₚ existing.
Proof.
  intros Hex Hreq. apply NoDup_Permutation; [|done|].
  - apply NoDup_app. split_and!.
    + apply (sublist_NoDup _ requested); [done|apply filter_sublist_of].
    + intros c [Hc _]%columnsToMove_elem_of [_ Hno]%not_listed_filter. done.
    + apply (sublist_NoDup _ existing); [done|apply filter_sublist_of].
  - intros c. rewrite elem_of_app, columnsToMove_elem_of.
    unfold untouchedColumnNames. rewrite not_listed_filter.
    destruct (decide (c ∈ requested)); intuition.
Qed.

(** X19: [bringToFront] and [bringToBack] leave the rows and the index alone.
    When the requested names are distinct and the columns are distinct
    ignoring case, the new columns are a rearrangement of the old ones: the
    requested columns that exist, in the order requested, before or after
    the others in their old order.  A requested name that is no column is
    ignored. *)
Theorem bringToFront_rearranges_columns (df : DataFrame) (columnOrColumns : list string)
    (Hrequested : NoDup columnOrColumns)
    (Hnames : NoDup (toLowerCase <$> getColumnNames df)) :
  values (bringToFront df columnOrColumns) = values df
  ∧ pairs (bringToFront df columnOrColumns) = pairs df
  ∧ index (bringToFront df columnOrColumns) = index df
  ∧ values (bringToBack df columnOrColumns) = values df
  ∧ pairs (bringToBack df columnOrColumns) = pairs df
  ∧ getColumnNames (bringToFront df columnOrColumns)
    = List.filter (λ c, bool_decide (c ∈ getColumnNames df)) columnOrColumns
      ++ List.filter (λ c, negb (bool_decide (c ∈ columnOrColumns)))
                     (getColumnNames df)
  ∧ getColumnNames (bringToBack df columnOrColumns)
    = List.filter (λ c, negb (bool_decide (c ∈ columnOrColumns)))
                  (getColumnNames df)
      ++ List.filter (λ c, bool_decide (c ∈ getColumnNames df)) columnOrColumns
  ∧ getColumnNames (bringToFront df columnOrColumns) ≡ₚ getColumnNames df
  ∧ getColumnNames (bringToBack df columnOrColumns) ≡ₚ getColumnNames df.
Proof.
  pose proof (moved_columns_perm (getColumnNames df) columnOrColumns
                (NoDup_fmap_1 _ _ Hnames) Hrequested) as Hperm.
  assert (Hfront : getColumnNames (bringToFront df columnOrColumns)
                   = columnsToMove (getColumnNames df) columnOrColumns
                     ++ untouchedColumnNames (getColumnNames df) columnOrColumns).
  { apply initColumnNames_distinct. by rewrite Hperm. }
  assert (Hback : getColumnNames (bringToBack df columnOrColumns)
                  = untouchedColumnNames (getColumnNames df) columnOrColumns
                    ++ columnsToMove (getColumnNames df) columnOrColumns).
  { apply initColumnNames_distinct.
    by rewrite (Permutation_app_comm (untouchedColumnNames _ _)), Hperm. }
  split_and!; try done.
  - by rewrite Hfront.
  - by rewrite Hback, (Permutation_app_comm (untouchedColumnNames _ _)).
Qed.

Lemma bringToFront_rearranges_columns_witness :
  getColumnNames (bringToFront run_of_two_then_one ["B"; "Z"]) = ["B"; "A"]
  ∧ getColumnNames (bringToBack run_of_two_then_one ["A"; "Z"]) = ["B"; "A"].
Proof.
  assert (Hnames : NoDup (toLowerCase <$> getColumnNames run_of_two_then_one)).
  { apply (bool_decide_unpack _). by vm_compute. }
  split.
  - refine (eq_trans _ eq_refl).
    apply (bringToFront_rearranges_columns run_of_two_then_one ["B"; "Z"]);
      [apply (bool_decide_unpack _); by vm_compute|exact Hnames].
  - refine (eq_trans _ eq_refl).
    apply (bringToFront_rearranges_columns run_of_two_then_one ["A"; "Z"]);
      [apply (bool_decide_unpack _); by vm_compute|exact Hnames].
Defined.

(** A column requested twice is moved twice, and the constructor numbers
    the two copies. *)
Lemma bringToFront_repeated_request :
  getColumnNames (bringToFront run_of_two_then_one ["B"; "B"]) = ["B.1"; "B.2"; "A"].
Proof. by vm_compute. Qed.

(** X20: When [toRows] can read the rows, it gives one array per row, each with
    one cell per column in column order, the cell of a column that the row
    lacks being [undefined]. *)
Theorem toRows_one_cell_per_column (df : DataFrame) (rows : list (list value))
    (Hrows : toRows df = Ok rows) :
  length rows = count df
  ∧ ∀ i row, values df !! i = Some row →
      ∃ cells,
        rows !! i = Some cells
        ∧ length cells = length (getColumnNames df)
        ∧ ∀ j name, getColumnNames df !! j = Some name →
            ∃ cell, cells !! j = Some cell ∧ get_prop row name = Ok cell.
Proof.
  unfold toRows in Hrows. apply mapM_result_Forall2 in Hrows.
  rewrite count_length. split; [symmetry; by eapply Forall2_length|].
  intros i row Hi.
  destruct (Forall2_lookup_l _ _ _ i row Hrows Hi) as (cells & Hcells & Hread).
  exists cells. apply mapM_result_Forall2 in Hread. split_and!.
  - done.
  - symmetry. by eapply Forall2_length.
  - intros j name Hj.
    destruct (Forall2_lookup_l _ _ _ j name Hread Hj) as (cell & Hcell & Hget).
    by exists cell.
Qed.

Lemma toRows_one_cell_per_column_witness :
  ∃ rows, toRows row_with_extra_field = Ok rows ∧ length rows = 1.
Proof.
  eexists. split; [reflexivity|].
  apply (toRows_one_cell_per_column row_with_extra_field _ eq_refl).
Defined.

(** X21: [toRows] fails exactly when the dataframe has a column and some row is
    [null] or [undefined]. *)
Theorem toRows_fails_on_missing_row (df : DataFrame) :
  (∃ rows, toRows df = Ok rows)
  ↔ getColumnNames df = []
    ∨ ∀ row, row ∈ values df → loose_ne_undefined row = true.
Proof.
  unfold toRows. rewrite mapM_result_succeeds. split.
  - intros Hall. destruct (getColumnNames df) as [|c names]; [by left|]. right.
    intros row Hrow. destruct (Hall row Hrow) as [cells Hcells].
    destruct (loose_ne_undefined row) eqn:Hnull; [done|].
    destruct (get_prop_throws row c Hnull) as [msg Hmsg].
    simpl in Hcells. by rewrite Hmsg in Hcells.
  - intros Hok row Hrow. apply mapM_result_succeeds.
    intros name Hname. destruct Hok as [Hnil|Hok].
    + rewrite Hnil in Hname. by apply elem_of_nil in Hname.
    + apply get_prop_ok. by apply Hok.
Qed.

(** ** The groups of [groupBy] *)









(** ** Construction from an array, [select], [defaultIfEmpty] *)

(** X23: A dataframe built from an array holds the array as its rows under the
    index 0, 1, 2, ...; its columns are the keys of the first element as
    they are, without the renaming that a configuration gets, and baking it
    changes nothing.  The first element is not [null] or [undefined]. *)
Theorem array_constructor_reads_first_row (arr : list value) (df : DataFrame)
    (Hnew : DataFrame_new (ArrayArg arr) = Ok df) :
  values df = arr
  ∧ (pairs df).*1 = count_from 0 (length arr)
  ∧ (pairs df).*2 = arr
  ∧ getColumnNames df = match arr with
                        | [] => []
                        | first :: _ => (own_props first).*1
                        end
  ∧ bake df = df
  ∧ (∀ first rest, arr = first :: rest → loose_ne_undefined first = true).
Proof.
  simpl in Hnew. unfold initFromArray in Hnew.
  destruct arr as [|first rest].
  - simpl in Hnew. injection Hnew as <-. by split_and!.
  - destruct first; simpl in Hnew; try done; injection Hnew as <-;
      (split_and!; [done|apply (fst_zip_count (_ :: rest))
                   |apply (fst_zip_count (_ :: rest))|done|done|]);
      by intros ? ? [= <- _].
Qed.

Lemma array_constructor_reads_first_row_witness :
  ∃ df, DataFrame_new (ArrayArg [VObj 0 [("A", VNum 1); ("a", VNum 2)]; VNull]) = Ok df
        ∧ getColumnNames df = ["A"; "a"].
Proof.
  eexists. split; [reflexivity|].
  apply (array_constructor_reads_first_row
           [VObj 0 [("A", VNum 1); ("a", VNum 2)]; VNull] _ eq_refl).
Defined.

(** X24: An array whose first element is [null] or [undefined] cannot be made
    into a dataframe, whatever follows; any other array can. *)
Theorem array_constructor_fails_on_missing_first_row (arr : list value) :
  (∃ df, DataFrame_new (ArrayArg arr) = Ok df)
  ↔ match arr with
    | [] => True
    | first :: _ => loose_ne_undefined first = true
    end.
Proof.
  simpl. unfold initFromArray. destruct arr as [|first rest]; simpl.
  - split; [done|by eexists].
  - destruct first; simpl; split; try done; try by eexists.
    + by intros [df Hdf].
    + by intros [df Hdf].
Qed.

Lemma imap_imap {A B C} (f : nat → A → B) (g : nat → B → C) (l : list A) :
  imap g (imap f l) = imap (λ i x, g i (f i x)) l.
Proof.
  revert f g. induction l as [|x l IH]; intros f g; simpl; [done|].
  f_equal. apply IH.
Qed.

(** X25: [select] maps each row, handing the selector the position of the row;
    it keeps the index and the number of rows, two selections in a row are
    the selection by the composed selector, and the columns are read anew
    from the first output row. *)
Theorem select_maps_rows_in_place (df : DataFrame) (f g : value → nat → value) :
  index (select df f) = index df
  ∧ count (select df f) = count df
  ∧ (∀ i row, values df !! i = Some row → values (select df f) !! i = Some (f row i))
  ∧ values (select (select df f) g) = values (select df (λ row i, g (f row i) i))
  ∧ (∀ row rest ref props,
       values df = row :: rest → f row 0 = VObj ref props →
       getColumnNames (select df f) = props.*1).
Proof.
  change (values (select (select df f) g))
    with (imap (λ i x, g x i) (imap (λ i x, f x i) (values df))).
  change (values (select df (λ row i, g (f row i) i)))
    with (imap (λ i x, g (f x i) i) (values df)).
  rewrite !count_length.
  change (values (select df f)) with (imap (λ i x, f x i) (values df)).
  split_and!.
  - done.
  - by rewrite length_imap.
  - intros i row Hi. by rewrite list_lookup_imap, Hi.
  - by rewrite imap_imap.
  - intros row rest ref props Hvals Hrow. unfold getColumnNames.
    change (columnNames (select df f))
      with (ColumnNamesIterable (imap (λ i x, f x i) (values df)) false).
    rewrite Hvals. simpl. by rewrite Hrow.
Qed.

(** X26: [defaultIfEmpty] returns the dataframe itself when it has a row; on a
    dataframe without rows it returns the default, which for an array is a
    new dataframe of that array and fails if the first element of the array
    is [null] or [undefined]. *)
Theorem defaultIfEmpty_only_when_empty (df other : DataFrame) (arr : list value) :
  (values df ≠ [] →
   defaultIfEmpty df (inl other) = Ok df ∧ defaultIfEmpty df (inr arr) = Ok df)
  ∧ (values df = [] →
     defaultIfEmpty df (inl other) = Ok other
     ∧ defaultIfEmpty df (inr arr) = DataFrame_new (ArrayArg arr)
     ∧ ((∃ df', defaultIfEmpty df (inr arr) = Ok df')
        ↔ match arr with
          | [] => True
          | first :: _ => loose_ne_undefined first = true
          end)
     ∧ ∀ df', defaultIfEmpty df (inr arr) = Ok df' → toArray df' = List.filter strict_ne_undefined arr).
Proof.
  unfold defaultIfEmpty, none. split.
  - intros Hne. by destruct (values df).
  - intros ->. split_and!; try done.
    + simpl. unfold initFromArray. destruct arr as [|first rest]; simpl.
      * split; [done|by eexists].
      * destruct first; simpl; split; try done; try by eexists.
        -- by intros [df' Hdf].
        -- by intros [df' Hdf].
    + intros df' Hnew. rewrite toArray_filter. f_equal.
      simpl in Hnew. unfold initFromArray in Hnew.
      destruct arr as [|first rest]; simpl in Hnew.
      * by injection Hnew as <-.
      * destruct first; simpl in Hnew; try done; by injection Hnew as <-.
Qed.

(** ** Renaming columns *)

(** X27: Renaming one column gives each row the new field with the value of the
    old one, [undefined] if the row had none, and removes the old field;
    the other fields stay.  Renaming a column to its own name removes the
    field from every row while the column stays in the list of columns. *)
Theorem renameSeries_moves_the_field (alloc allocPairs : nat → nat) (df : DataFrame)
    (oldName newName : string) :
  length (values (renameSeries alloc allocPairs df [(oldName, newName)]))
  = length (values df)
  ∧ index (renameSeries alloc allocPairs df [(oldName, newName)]) = index df
  ∧ (∀ i row, values df !! i = Some row →
       ∃ props,
         values (renameSeries alloc allocPairs df [(oldName, newName)]) !! i
         = Some (VObj (alloc i) props)
         ∧ assoc oldName props = None
         ∧ (newName ≠ oldName →
            assoc newName props
            = Some (default VUndefined (assoc oldName (own_props row))))
         ∧ ∀ other, other ≠ oldName → other ≠ newName →
                    assoc other props = assoc other (own_props row))
  ∧ getColumnNames (renameSeries alloc allocPairs df [(oldName, newName)])
    = initColumnNames
        ((λ name, if bool_decide (name = oldName) then newName else name)
           <$> getColumnNames df)
  ∧ (NoDup (toLowerCase <$> getColumnNames df) →
     getColumnNames (renameSeries alloc allocPairs df [(oldName, oldName)])
     = getColumnNames df).
Proof.
  change (values (renameSeries alloc allocPairs df [(oldName, newName)]))
    with (imap (λ i row, VObj (alloc i) (remapValue [(oldName, newName)] row))
               (values df)).
  split_and!.
  - by rewrite length_imap.
  - done.
  - intros i row Hi. exists (remapValue [(oldName, newName)] row). split_and!.
    + by rewrite list_lookup_imap, Hi.
    + apply assoc_delete_prop_eq.
    + intros Hne. unfold remapValue. simpl.
      rewrite assoc_delete_prop_ne by done. by rewrite assoc_set_prop_eq.
    + intros other Hold Hnew. unfold remapValue. simpl.
      rewrite assoc_delete_prop_ne by done. by rewrite assoc_set_prop_ne.
  - unfold getColumnNames.
    change (columnNames (renameSeries alloc allocPairs df [(oldName, newName)]))
      with (initColumnNames
              ((λ name, default name (assoc_name name [(oldName, newName)]))
                 <$> columnNames df)).
    f_equal. apply list_fmap_ext. intros _ name _. simpl.
    rewrite (bool_decide_ext (oldName = name) (name = oldName)) by done.
    by case_bool_decide.
  - intros Hnd. unfold getColumnNames in *.
    change (columnNames (renameSeries alloc allocPairs df [(oldName, oldName)]))
      with (initColumnNames
              ((λ name, default name (assoc_name name [(oldName, oldName)]))
                 <$> columnNames df)).
    assert (Hid : (λ name, default name (assoc_name name [(oldName, oldName)]))
                    <$> columnNames df = columnNames df).
    { rewrite <- (list_fmap_id (columnNames df)) at 2. apply list_fmap_ext.
      intros _ name _. simpl. case_bool_decide; by subst. }
    rewrite Hid. by apply initColumnNames_distinct.
Qed.

(** ** Chains of orderings *)

Lemma OrderedDataFrame_new_content (vals : list value) (prs : list (value * value))
    (selector : value → nat → value) (direction : Sort.Direction)
    (parent : option OrderedDataFrame) :
  Ordered.origValues (OrderedDataFrame_new vals prs selector direction parent) = vals
  ∧ Ordered.origPairs (OrderedDataFrame_new vals prs selector direction parent) = prs
  ∧ values (Ordered.content (OrderedDataFrame_new vals prs selector direction parent))
    ≡ₚ vals
  ∧ pairs (Ordered.content (OrderedDataFrame_new vals prs selector direction parent))
    ≡ₚ prs.
Proof.
  unfold OrderedDataFrame_new.
  destruct (constructor_specs selector direction parent) as [[vs ps] after].
  split_and!; try done; apply OrderedIterable_perm.
Qed.

(** X28: However an ordering is built from a dataframe, by [orderBy] or
    [orderByDescending] followed by any number of [thenBy] and
    [thenByDescending], it remembers the rows of the dataframe as they were
    and holds the same rows and pairs in some order: sorting neither drops
    nor adds rows. *)
Theorem ordering_keeps_the_rows (df : DataFrame) (ordered : OrderedDataFrame)
    (Hordered : ordering_of df ordered) :
  Ordered.origValues ordered = values df
  ∧ Ordered.origPairs ordered = pairs df
  ∧ values (Ordered.content ordered) ≡ₚ values df
  ∧ pairs (Ordered.content ordered) ≡ₚ pairs df
  ∧ count (Ordered.content ordered) = count df.
Proof.
  assert (H : Ordered.origValues ordered = values df
              ∧ Ordered.origPairs ordered = pairs df
              ∧ values (Ordered.content ordered) ≡ₚ values df
              ∧ pairs (Ordered.content ordered) ≡ₚ pairs df).
  { induction Hordered as [sel|sel|o sel _ (IHv & IHp & _)|o sel _ (IHv & IHp & _)].
    - apply OrderedDataFrame_new_content.
    - apply OrderedDataFrame_new_content.
    - unfold thenBy. rewrite <- IHv, <- IHp. apply OrderedDataFrame_new_content.
    - unfold thenByDescending. rewrite <- IHv, <- IHp.
      apply OrderedDataFrame_new_content. }
  destruct H as (Hv & Hp & Hvals & Hprs). split_and!; try done.
  rewrite !count_length. by apply Permutation_length.
Qed.

Lemma ordering_keeps_the_rows_witness :
  count (Ordered.content
           (thenByDescending (thenBy (orderBy rows_a2_a1 (column "a")) (column "b"))
                             (column "c"))) = 2.
Proof.
  refine (eq_trans _ (eq_refl : count rows_a2_a1 = 2)).
  apply (ordering_keeps_the_rows rows_a2_a1).
  apply ordering_thenByDescending, ordering_thenBy, ordering_orderBy.
Defined.

(** ** The inner join *)


